(** * graceful_controller_ros: the local-planner plugin, embedded in Rocq

    Shallow embedding of [GracefulControllerROS]
    (graceful_controller_ros/src/graceful_controller_ros.cpp).

    Conventions of the embedding.
    - A C++ [double] is idealised as a real number of [R]; [std::hypot],
      [std::atan2], [sqrt], [sin], [cos], [fabs], [std::min], [std::max]
      are their real-valued counterparts.  A division whose divisor is
      zero has no real value: it is modelled by [None].
    - [std::vector] is a [list]; an access outside the vector (undefined
      behaviour in C++) is [None].  [size_t] arithmetic wraps at 2^64.
    - The members of the class form the record [Planner]; a member
      function takes the record and returns the updated one.
    - The collaborators the class calls but does not implement (tf2,
      costmap_2d, base_local_planner, the GracefulController law) are the
      fields of the record [Host]. *)

From Stdlib Require Import Reals Lra ZArith Lia.
From stdpp Require Import base option list.

Open Scope R_scope.

(** ** Numbers *)

Definition ltb (x y : R) : bool := if Rlt_dec x y then true else false.

(** [double sign(double x)], lines 60-63. *)
Definition sign (x : R) : R := if ltb x 0 then -1 else 1.

(** [std::hypot]. *)
Definition hypot (x y : R) : R := sqrt (x * x + y * y).

(** [std::atan2]: the angle of the point [(x, y)], in (-PI, PI]. *)
Definition atan2 (y x : R) : R :=
  if ltb 0 x then atan (y / x)
  else if ltb x 0 then (if ltb y 0 then atan (y / x) - PI else atan (y / x) + PI)
  else if ltb 0 y then PI / 2
  else if ltb y 0 then - (PI / 2)
  else 0.

(** Division of doubles; no real value when the divisor is zero. *)
Definition fdiv (a b : R) : option R :=
  if Req_dec_T b 0 then None else Some (a / b).

(** [size_t] subtraction, modulo 2^64. *)
Definition size_t_sub (a b : Z) : Z := ((a - b) mod 2 ^ 64)%Z.

(** ** Messages *)

(** [geometry_msgs::Point]; [z] is never read or written by the class. *)
Record Point := mkPoint { x : R; y : R }.

(** [geometry_msgs::Quaternion]. *)
Record Quaternion := mkQuaternion { qx : R; qy : R; qz : R; qw : R }.

(** [geometry_msgs::PoseStamped], without its header. *)
Record Pose := mkPose { position : Point; orientation : Quaternion }.

(** [geometry_msgs::Twist]: the two components the class writes. *)
Record Twist := mkTwist { linear_x : R; angular_z : R }.

(** A default-constructed message: every field is zero. *)
Definition default_pose : Pose := mkPose (mkPoint 0 0) (mkQuaternion 0 0 0 0).

(** [p.pose.orientation.z = sin(yaw / 2.0); p.pose.orientation.w = cos(yaw / 2.0);]
    the other two components of the quaternion are left as they are. *)
Definition set_yaw (p : Pose) (yaw : R) : Pose :=
  mkPose (position p)
         (mkQuaternion (qx (orientation p)) (qy (orientation p))
                       (sin (yaw / 2)) (cos (yaw / 2))).

(** ** setPlan: orienting the plan (lines 422-438) *)

(** The body of the [for] loop at index [i], run [n] more times. *)
Fixpoint orient_loop (n i : nat) (plan oriented : list Pose) : option (list Pose) :=
  match n with
  | O => Some oriented
  | S n' =>
      p ← plan !! i;
      _ ← oriented !! i;
      next ← plan !! (i + 1)%nat;
      let dx := x (position next) - x (position p) in
      let dy := y (position next) - y (position p) in
      let yaw := atan2 dy dx in
      orient_loop n' (i + 1) plan (<[i := set_yaw p yaw]> oriented)
  end.

(** The loop bound [oriented_plan.size() - 1], a [size_t]. *)
Definition orient_bound (oriented : list Pose) : Z :=
  size_t_sub (Z.of_nat (length oriented)) 1.

(** Lines 423-438: [None] is undefined behaviour ([back()] of an empty
    vector, or an index outside the vector). *)
Definition orient_plan (plan : list Pose) : option (list Pose) :=
  let oriented := replicate (length plan) default_pose in
  b ← last plan;
  _ ← last oriented;
  let oriented := <[(length oriented - 1)%nat := b]> oriented in
  orient_loop (Z.to_nat (orient_bound oriented)) 0 plan oriented.

(** ** Configuration and state *)

(** [base_local_planner::LocalPlannerLimits]: the fields the class reads. *)
Record LocalPlannerLimits := mkLimits {
  max_vel_x : R;
  min_vel_x : R;
  acc_lim_x : R;
  max_vel_theta : R;
  acc_lim_theta : R
}.

(** The velocity bounds held by the [GracefulController] object, as set by
    its constructor and by [setVelocityLimits(min_x, max_x, max_theta)]. *)
Record VelocityLimits := mkVelocityLimits {
  law_min_vel_x : R;
  law_max_vel_x : R;
  law_max_vel_theta : R
}.

(** The data members of [GracefulControllerROS] (lines 511-537).
    [odom_topic_] is [!odom_helper_.getOdomTopic().empty()]; [limits_] is
    what [planner_util_.getCurrentLimits()] returns; [global_plan_] is the
    plan stored in [planner_util_]. *)
Record Planner := mkPlanner {
  initialized_ : bool;
  controller_ : VelocityLimits;
  limits_ : LocalPlannerLimits;
  odom_topic_ : bool;
  global_plan_ : list Pose;
  max_vel_x_ : R;
  min_in_place_vel_theta_ : R;
  xy_goal_tolerance_ : R;
  yaw_goal_tolerance_ : R;
  max_lookahead_ : R;
  resolution_ : R;
  acc_dt_ : R;
  initial_rotate_tolerance_ : R;
  has_new_path_ : bool;
  robot_pose_ : Pose
}.

Definition with_controller (c : VelocityLimits) (s : Planner) : Planner :=
  mkPlanner (initialized_ s) c (limits_ s) (odom_topic_ s) (global_plan_ s)
    (max_vel_x_ s) (min_in_place_vel_theta_ s) (xy_goal_tolerance_ s)
    (yaw_goal_tolerance_ s) (max_lookahead_ s) (resolution_ s) (acc_dt_ s)
    (initial_rotate_tolerance_ s) (has_new_path_ s) (robot_pose_ s).

Definition with_global_plan (l : list Pose) (s : Planner) : Planner :=
  mkPlanner (initialized_ s) (controller_ s) (limits_ s) (odom_topic_ s) l
    (max_vel_x_ s) (min_in_place_vel_theta_ s) (xy_goal_tolerance_ s)
    (yaw_goal_tolerance_ s) (max_lookahead_ s) (resolution_ s) (acc_dt_ s)
    (initial_rotate_tolerance_ s) (has_new_path_ s) (robot_pose_ s).

Definition with_max_vel_x (v : R) (s : Planner) : Planner :=
  mkPlanner (initialized_ s) (controller_ s) (limits_ s) (odom_topic_ s)
    (global_plan_ s) v (min_in_place_vel_theta_ s) (xy_goal_tolerance_ s)
    (yaw_goal_tolerance_ s) (max_lookahead_ s) (resolution_ s) (acc_dt_ s)
    (initial_rotate_tolerance_ s) (has_new_path_ s) (robot_pose_ s).

Definition with_has_new_path (b : bool) (s : Planner) : Planner :=
  mkPlanner (initialized_ s) (controller_ s) (limits_ s) (odom_topic_ s)
    (global_plan_ s) (max_vel_x_ s) (min_in_place_vel_theta_ s)
    (xy_goal_tolerance_ s) (yaw_goal_tolerance_ s) (max_lookahead_ s)
    (resolution_ s) (acc_dt_ s) (initial_rotate_tolerance_ s) b (robot_pose_ s).

Definition with_robot_pose (p : Pose) (s : Planner) : Planner :=
  mkPlanner (initialized_ s) (controller_ s) (limits_ s) (odom_topic_ s)
    (global_plan_ s) (max_vel_x_ s) (min_in_place_vel_theta_ s)
    (xy_goal_tolerance_ s) (yaw_goal_tolerance_ s) (max_lookahead_ s)
    (resolution_ s) (acc_dt_ s) (initial_rotate_tolerance_ s)
    (has_new_path_ s) p.

(** ** Collaborators *)

(** [costmap_2d::INSCRIBED_INFLATED_OBSTACLE] (costmap_2d/cost_values.h). *)
Definition INSCRIBED_INFLATED_OBSTACLE : N := 253%N.

(** What the class calls and does not implement, as seen during one call
    of a member function.
    - [doTransform t p] is [tf2::doTransform(p, out, t)], [inverse] the
      inverse transform, [getYaw] is [tf2::getYaw];
    - [shortest_angular_distance] is [angles::shortest_angular_distance];
    - [getRobotPose] is [costmap_ros_->getRobotPose], [None] when it fails
      (what a failing call leaves in the pose it is handed is not modelled);
    - [getLocalPlan] and [getGoal] are those of [planner_util_], seen as
      results only (what [getLocalPlan] does to the plan that
      [planner_util_] stores, such as pruning it, is not modelled);
      [planner_setPlan] tells whether [planner_util_.setPlan] accepts;
    - [lookupTransform] is the transform from the global frame to the base
      frame, [None] when [tf2::TransformException] is thrown;
    - [getRobotVel] is [odom_helper_.getRobotVel]: the linear velocity in
      [position.x], the angular velocity as the yaw of [orientation];
    - [approach lim ex ey etheta] is [controller_->approach] of a law whose
      velocity bounds are [lim], [None] when it returns false;
    - [worldToMap] and [getCost] are those of the costmap. *)
Record Host := mkHost {
  Transform : Type;
  doTransform : Transform -> Pose -> Pose;
  inverse : Transform -> Transform;
  getYaw : Quaternion -> R;
  shortest_angular_distance : R -> R -> R;
  getRobotPose : option Pose;
  getLocalPlan : Pose -> option (list Pose);
  getGoal : option Pose;
  planner_setPlan : list Pose -> bool;
  lookupTransform : option Transform;
  getRobotVel : Pose;
  approach : VelocityLimits -> R -> R -> R -> option (R * R);
  worldToMap : R -> R -> option (N * N);
  getCost : N -> N -> N
}.

(** ** Outcomes *)

(** How the [while (true)] loop of one candidate is left. *)
Inductive sim_exit :=
| Reached (path : list Pose)   (* line 327: [return true] *)
| ApproachFailed               (* line 315: [return false] *)
| OffCostmap                   (* line 360: [break] *)
| Collision                    (* line 366: [break] *)
| DivisionByZero               (* line 345 with [vel_x == 0] *)
| OutOfFuel.                   (* the loop is still running *)

Definition rejected (e : sim_exit) : bool :=
  match e with OffCostmap | Collision => true | _ => false end.

(** How a call of [computeVelocityCommands] ends. *)
Inductive outcome :=
| Return (b : bool)
| Undefined
| Diverges.

(** The result of one call: how it ended, the content of the [cmd_vel]
    reference, the members, and (a ghost log) the path indices handed to the
    simulation loop, in the order they were tried, each with its exit. *)
Record cycle := mkCycle {
  result : outcome;
  cmd_vel : Twist;
  planner : Planner;
  attempts : list (nat * sim_exit)
}.

Definition logged (a : nat * sim_exit) (c : cycle) : cycle :=
  mkCycle (result c) (cmd_vel c) (planner c) (a :: attempts c).

Section Controller.

Context (host : Host).

(** ** rotateTowards (lines 459-499) *)

Definition rotate_yaw (pose : Pose) : R :=
  if ltb 0.5 (hypot (x (position pose)) (y (position pose)))
  then atan2 (y (position pose)) (x (position pose))
  else getYaw host (orientation pose).

Definition rotate_max_vel_th (s : Planner) : R :=
  let max_vel_th := max_vel_theta (limits_ s) in
  if odom_topic_ s then
    let abs_vel := Rabs (getYaw host (orientation (getRobotVel host))) in
    let acc_limited := abs_vel + acc_lim_theta (limits_ s) * acc_dt_ s in
    let max_vel_th := Rmin max_vel_th acc_limited in
    Rmax max_vel_th (min_in_place_vel_theta_ s)
  else max_vel_th.

(** Returns the angular error and the command: both modelled components
    of [cmd_vel] are overwritten. *)
Definition rotateTowards (s : Planner) (pose : Pose) : R * Twist :=
  let yaw := rotate_yaw pose in
  let max_vel_th := rotate_max_vel_th s in
  let angular := sqrt (2 * acc_lim_theta (limits_ s) * Rabs yaw) in
  let angular :=
    sign yaw * Rmin max_vel_th (Rmax (min_in_place_vel_theta_ s) angular) in
  (yaw, mkTwist 0 angular).

(** ** The simulation loop (lines 286-368) *)

(** Lines 289-307: the target seen from the last simulated pose. *)
Definition relative_error (pose : Pose) (path : list Pose) : R * R * R :=
  let error_angle := getYaw host (orientation pose) in
  match last path with
  | None => (x (position pose), y (position pose), error_angle)
  | Some back =>
      let ex := x (position pose) - x (position back) in
      let ey := y (position pose) - y (position back) in
      let theta := - getYaw host (orientation back) in
      (ex * cos theta - ey * sin theta, ey * cos theta + ex * sin theta,
       error_angle + theta)
  end.

(** Lines 331-342: where the step starts from. *)
Definition start_pose (path : list Pose) : Pose :=
  match last path with
  | None => mkPose (mkPoint 0 0) (mkQuaternion 0 0 0 1)
  | Some back => back
  end.

(** Lines 345-351: one integration step from [start]. *)
Definition generate_next_pose (resolution vel_x vel_th : R) (start : Pose)
  : option Pose :=
  dt ← fdiv resolution vel_x;
  let yaw := getYaw host (orientation start) in
  let nx := x (position start) + dt * vel_x * cos yaw in
  let ny := y (position start) + dt * vel_x * sin yaw in
  let yaw := yaw + dt * vel_th in
  Some (set_yaw (mkPose (mkPoint nx ny) (orientation start)) yaw).

(** Lines 355-367: is the simulated pose off the costmap or in collision? *)
Definition check_pose (base_to_odom : Transform host) (next_pose : Pose)
  : option sim_exit :=
  let p := doTransform host base_to_odom next_pose in
  match worldToMap host (x (position p)) (y (position p)) with
  | None => Some OffCostmap
  | Some (mx, my) =>
      if (INSCRIBED_INFLATED_OBSTACLE <=? getCost host mx my)%N
      then Some Collision else None
  end.

(** The loop, run for at most [fuel] iterations, from the simulated [path]. *)
Fixpoint rollout (fuel : nat) (s : Planner) (base_to_odom : Transform host)
    (pose : Pose) (path : list Pose) (cmd : Twist) : sim_exit * Twist :=
  match fuel with
  | O => (OutOfFuel, cmd)
  | S fuel' =>
      let '(ex, ey, error_angle) := relative_error pose path in
      match approach host (controller_ s) ex ey error_angle with
      | None => (ApproachFailed, cmd)
      | Some (vel_x, vel_th) =>
          let cmd := match path with [] => mkTwist vel_x vel_th | _ => cmd end in
          if match path with [] => false | _ => ltb (hypot ex ey) (resolution_ s) end
          then (Reached path, cmd)
          else
            match generate_next_pose (resolution_ s) vel_x vel_th (start_pose path) with
            | None => (DivisionByZero, cmd)
            | Some next_pose =>
                let path := path ++ [next_pose] in
                match check_pose base_to_odom next_pose with
                | Some e => (e, cmd)
                | None => rollout fuel' s base_to_odom pose path cmd
                end
            end
      end
  end.

(** ** The candidate scan (lines 242-369) *)

(** Lines 257-269: [inl] is the early [return true] while still rotating. *)
Definition initial_rotation (s : Planner) (pose : Pose) (cmd : Twist)
  : Twist + Planner * Twist :=
  if has_new_path_ s && ltb 0 (initial_rotate_tolerance_ s) then
    let '(yaw, cmd) := rotateTowards s pose in
    if ltb (Rabs yaw) (initial_rotate_tolerance_ s)
    then inr (with_has_new_path false s, cmd)
    else inl cmd
  else inr (s, cmd).

(** Lines 277-279: the cap on the forward velocity. *)
Definition capped_max_vel_x (s : Planner) : R :=
  let max_vel_x := x (position (getRobotVel host)) + acc_lim_x (limits_ s) * acc_dt_ s in
  let max_vel_x := Rmin max_vel_x (max_vel_x_ s) in
  Rmax max_vel_x (min_vel_x (limits_ s)).

(** Lines 272-281. *)
Definition configure_velocity (s : Planner) : Planner :=
  if odom_topic_ s then
    with_controller
      (mkVelocityLimits (min_vel_x (limits_ s)) (capped_max_vel_x s)
                        (max_vel_theta (limits_ s))) s
  else s.

(** The [for] loop from index [i] down to 1. *)
Fixpoint scan (fuel : nat) (plan : list Pose)
    (odom_to_base base_to_odom : Transform host)
    (i : nat) (s : Planner) (cmd : Twist) : cycle :=
  match i with
  | O => mkCycle (Return false) cmd s []
  | S i' =>
      match plan !! i with
      | None => mkCycle Undefined cmd s []
      | Some pose =>
          let dx := x (position pose) - x (position (robot_pose_ s)) in
          let dy := y (position pose) - y (position (robot_pose_ s)) in
          if ltb (max_lookahead_ s) (hypot dx dy)
          then scan fuel plan odom_to_base base_to_odom i' s cmd
          else
            let pose := doTransform host odom_to_base pose in
            match initial_rotation s pose cmd with
            | inl cmd => mkCycle (Return true) cmd s []
            | inr (s, cmd) =>
                let s := configure_velocity s in
                let '(e, cmd) := rollout fuel s base_to_odom pose [] cmd in
                match e with
                | Reached _ => mkCycle (Return true) cmd s [(i, e)]
                | ApproachFailed => mkCycle (Return false) cmd s [(i, e)]
                | OffCostmap | Collision =>
                    logged (i, e)
                      (scan fuel plan odom_to_base base_to_odom i' s cmd)
                | DivisionByZero => mkCycle Undefined cmd s [(i, e)]
                | OutOfFuel => mkCycle Diverges cmd s [(i, e)]
                end
            end
      end
  end.

(** ** computeVelocityCommands (lines 179-373) *)

Definition computeVelocityCommands (fuel : nat) (s : Planner) (cmd : Twist)
  : cycle :=
  if negb (initialized_ s) then mkCycle (Return false) cmd s []
  else
    match getRobotPose host with
    | None => mkCycle (Return false) cmd s []
    | Some robot_pose =>
        let s := with_robot_pose robot_pose s in
        match getLocalPlan host robot_pose with
        | None => mkCycle (Return false) cmd s []
        | Some transformed_plan =>
            match last transformed_plan with
            | None => mkCycle (Return false) cmd s []
            | Some back =>
                match lookupTransform host with
                | None => mkCycle (Return false) cmd s []
                | Some odom_to_base =>
                    let base_to_odom := inverse host odom_to_base in
                    let dx := x (position back) - x (position robot_pose) in
                    let dy := y (position back) - y (position robot_pose) in
                    if ltb (hypot dx dy) (xy_goal_tolerance_ s) then
                      let goal := doTransform host odom_to_base back in
                      mkCycle (Return true) (snd (rotateTowards s goal)) s []
                    else
                      scan fuel transformed_plan odom_to_base base_to_odom
                           (length transformed_plan - 1) s cmd
                end
            end
        end
    end.

(** ** isGoalReached (lines 379-407) *)

Definition isGoalReached (s : Planner) : bool * Planner :=
  if negb (initialized_ s) then (false, s)
  else
    match getRobotPose host with
    | None => (false, s)
    | Some robot_pose =>
        let s := with_robot_pose robot_pose s in
        match getGoal host with
        | None => (false, s)
        | Some goal =>
            let dist := hypot (x (position goal) - x (position robot_pose))
                              (y (position goal) - y (position robot_pose)) in
            let angle := shortest_angular_distance host
                           (getYaw host (orientation goal))
                           (getYaw host (orientation robot_pose)) in
            (ltb dist (xy_goal_tolerance_ s)
             && ltb (Rabs angle) (yaw_goal_tolerance_ s), s)
        end
    end.

(** ** setPlan (lines 414-451) *)

(** [None] is undefined behaviour. *)
Definition setPlan (s : Planner) (plan : list Pose) : option (bool * Planner) :=
  if negb (initialized_ s) then Some (false, s)
  else
    oriented_plan ← orient_plan plan;
    if planner_setPlan host oriented_plan
    then Some (true, with_has_new_path true (with_global_plan oriented_plan s))
    else Some (false, s).

(** ** velocityCallback (lines 502-509) *)

Definition velocityCallback (s : Planner) (data : R) : Planner :=
  with_max_vel_x
    (Rmax (Rmin data (max_vel_x (limits_ s))) (min_vel_x (limits_ s))) s.

End Controller.

(** ** The specification's vocabulary *)

(** [clamp v lo hi] as [std::clamp] computes it; it is meant for
    [lo <= hi]. *)
Definition clamp (v lo hi : R) : R :=
  if ltb v lo then lo else if ltb hi v then hi else v.

(** The integration step in the order the specification words it: the yaw
    is advanced first and the position moves along the new heading. *)
Definition integrate_heading_first (host : Host) (resolution vel_x vel_th : R)
    (start : Pose) : option Pose :=
  dt ← fdiv resolution vel_x;
  let yaw := getYaw host (orientation start) + dt * vel_th in
  let nx := x (position start) + dt * vel_x * cos yaw in
  let ny := y (position start) + dt * vel_x * sin yaw in
  Some (set_yaw (mkPose (mkPoint nx ny) (orientation start)) yaw).

(** Candidate [i] of [plan] lies within [max_lookahead] of the robot. *)
Definition within_lookahead (s : Planner) (plan : list Pose) (i : nat) : Prop :=
  exists pose, plan !! i = Some pose /\
    hypot (x (position pose) - x (position (robot_pose_ s)))
          (y (position pose) - y (position (robot_pose_ s))) <= max_lookahead_ s.

(** How the cycle ends when the loop of a candidate is left otherwise than
    by a rejection. *)
Definition exit_outcome (e : sim_exit) : outcome :=
  match e with
  | Reached _ => Return true
  | ApproachFailed => Return false
  | DivisionByZero => Undefined
  | OutOfFuel => Diverges
  | OffCostmap | Collision => Return false
  end.

(** [cmd_vel] holds the command that the law, with the bounds it has at the
    end of the cycle, answers at the first iteration of the loop for the
    last candidate tried. *)
Definition holds_first_command (host : Host) (plan : list Pose)
    (odom_to_base : Transform host) (c : cycle) : Prop :=
  exists i e pose ex ey error_angle,
    last (attempts c) = Some (i, e)
    /\ plan !! i = Some pose
    /\ relative_error host (doTransform host odom_to_base pose) []
       = (ex, ey, error_angle)
    /\ approach host (controller_ (planner c)) ex ey error_angle
       = Some (linear_x (cmd_vel c), angular_z (cmd_vel c)).

(** The ways out of the [while (true)] loop, as conditions on the iteration
    that starts with the simulated [path]: convergence (line 323), a failure
    of the law (line 311), a step whose time increment has no value (line
    345), and the two rejections by the costmap (lines 357 and 362). *)
Inductive leaves_loop (host : Host) (s : Planner) (base_to_odom : Transform host)
    (pose : Pose) (path : list Pose) : sim_exit -> Prop :=
| leaves_converged ex ey error_angle vel_x vel_th :
    relative_error host pose path = (ex, ey, error_angle) ->
    approach host (controller_ s) ex ey error_angle = Some (vel_x, vel_th) ->
    path <> [] ->
    hypot ex ey < resolution_ s ->
    leaves_loop host s base_to_odom pose path (Reached path)
| leaves_law_failure ex ey error_angle :
    relative_error host pose path = (ex, ey, error_angle) ->
    approach host (controller_ s) ex ey error_angle = None ->
    leaves_loop host s base_to_odom pose path ApproachFailed
| leaves_undefined_step ex ey error_angle vel_th :
    relative_error host pose path = (ex, ey, error_angle) ->
    approach host (controller_ s) ex ey error_angle = Some (0, vel_th) ->
    (path <> [] -> resolution_ s <= hypot ex ey) ->
    leaves_loop host s base_to_odom pose path DivisionByZero
| leaves_off_costmap ex ey error_angle vel_x vel_th next_pose :
    relative_error host pose path = (ex, ey, error_angle) ->
    approach host (controller_ s) ex ey error_angle = Some (vel_x, vel_th) ->
    (path <> [] -> resolution_ s <= hypot ex ey) ->
    generate_next_pose host (resolution_ s) vel_x vel_th (start_pose path)
    = Some next_pose ->
    worldToMap host (x (position (doTransform host base_to_odom next_pose)))
                    (y (position (doTransform host base_to_odom next_pose)))
    = None ->
    leaves_loop host s base_to_odom pose path OffCostmap
| leaves_collision ex ey error_angle vel_x vel_th next_pose mx my :
    relative_error host pose path = (ex, ey, error_angle) ->
    approach host (controller_ s) ex ey error_angle = Some (vel_x, vel_th) ->
    (path <> [] -> resolution_ s <= hypot ex ey) ->
    generate_next_pose host (resolution_ s) vel_x vel_th (start_pose path)
    = Some next_pose ->
    worldToMap host (x (position (doTransform host base_to_odom next_pose)))
                    (y (position (doTransform host base_to_odom next_pose)))
    = Some (mx, my) ->
    (INSCRIBED_INFLATED_OBSTACLE <= getCost host mx my)%N ->
    leaves_loop host s base_to_odom pose path Collision.

(** ** A test bench *)

(** The yaw of a planar quaternion [(0, 0, sin (t/2), cos (t/2))], which
    stands for [tf2::getYaw] on the bench. *)
Definition planar_yaw (q : Quaternion) : R := 2 * atan2 (qz q) (qw q).

(** A host whose global frame is the base frame: the robot sits at the
    origin, the transforms are the identity, the local plan is the given
    one and its last pose is the goal; angles are compared by their
    difference. *)
Definition bench_host (local_plan : option (list Pose)) (velocity : Pose)
    (law : VelocityLimits -> R -> R -> R -> option (R * R))
    (grid : R -> R -> option (N * N)) (cost : N -> N -> N) : Host :=
  mkHost unit (fun _ p => p) (fun t => t) planar_yaw (fun from to => to - from)
         (Some (mkPose (mkPoint 0 0) (mkQuaternion 0 0 0 1)))
         (fun _ => local_plan) (local_plan ≫= last) (fun _ => true)
         (Some tt) velocity law grid cost.

(** The odometry of a robot that moves forward at [v] without turning. *)
Definition forward_velocity (v : R) : Pose :=
  mkPose (mkPoint v 0) (mkQuaternion 0 0 0 1).
Definition at_rest : Pose := forward_velocity 0.

Definition bench_limits : LocalPlannerLimits := mkLimits 0.5 0.1 0.2 1 1.

(** An initialized controller: lookahead 2, cells of size 1, goal tolerances
    0.1, in-place rotation at 0.3 at least, no initial rotation. *)
Definition bench_planner (odom : bool) : Planner :=
  mkPlanner true (mkVelocityLimits 0.1 0.5 1) bench_limits odom []
            0.5 0.3 0.1 0.1 2 1 0.25 0 false default_pose.

(** Poses of the bench, all with the identity orientation. *)
Definition origin : Pose := mkPose (mkPoint 0 0) (mkQuaternion 0 0 0 1).
Definition ahead (d : R) : Pose := mkPose (mkPoint d 0) (mkQuaternion 0 0 0 1).
Definition aside (d : R) : Pose := mkPose (mkPoint 0 d) (mkQuaternion 0 0 0 1).



Definition free_grid (wx wy : R) : option (N * N) := Some (0%N, 0%N).
Definition free_cost (mx my : N) : N := 0%N.
Definition lethal_cost (mx my : N) : N := 254%N.

(** A costmap of two cells along x, the second one (from x = 1.5) lethal. *)
Definition wall_grid (wx wy : R) : option (N * N) :=
  Some (if ltb wx 1.5 then 0%N else 1%N, 0%N).
Definition wall_cost (mx my : N) : N := if (mx =? 0)%N then 0%N else 254%N.

(** An obstacle-free costmap of two by six cells of size 1. *)
Definition pen_grid (wx wy : R) : option (N * N) :=
  if ltb wx (-0.5) then None
  else if ltb 1.5 wx then None
  else if ltb wy (-0.5) then None
  else if ltb 5.5 wy then None
  else Some (0%N, 0%N).

(** The poses of a robot that turns back and forth between [(0, 0)] and
    [(1, 0)], half a turn at each step. *)
Definition spinning (p : Pose) : Prop :=
  y (position p) = 0 /\
  ((x (position p) = 1 /\ qz (orientation p) = 1 /\ qw (orientation p) = 0)
   \/ (x (position p) = 0 /\ qz (orientation p) = 0 /\ qw (orientation p) = -1)
   \/ (x (position p) = 1 /\ qz (orientation p) = -1 /\ qw (orientation p) = 0)
   \/ (x (position p) = 0 /\ qz (orientation p) = 0 /\ qw (orientation p) = 1)).

(** A law that always answers the same command, and one that always fails. *)
Definition constant_law (vel_x vel_th : R)
  : VelocityLimits -> R -> R -> R -> option (R * R) :=
  fun _ _ _ _ => Some (vel_x, vel_th).
Definition failing_law : VelocityLimits -> R -> R -> R -> option (R * R) :=
  fun _ _ _ _ => None.

(** ** reconfigureCallback (lines 127-171) *)

(** [GracefulControllerConfig]: the fields that reach the members.  The
    gains [k1], [k2], [beta], [lambda] and [acc_lim_x] handed to the
    constructor of the law are part of the law, for which the field
    [approach] of the host stands. *)
Module config.
Record t := mk {
  max_vel_x : R;
  min_vel_x : R;
  acc_lim_x : R;
  max_vel_theta : R;
  acc_lim_theta : R;
  xy_goal_tolerance : R;
  yaw_goal_tolerance : R;
  min_in_place_vel_theta : R;
  max_lookahead : R;
  initial_rotate_tolerance : R
}.
End config.

(** [costmap_resolution] is [planner_util_.getCostmap()->getResolution()]. *)
Definition reconfigureCallback (costmap_resolution : R) (c : config.t)
    (s : Planner) : Planner :=
  mkPlanner (initialized_ s)
    (mkVelocityLimits (config.min_vel_x c) (config.max_vel_x c)
                      (config.max_vel_theta c))
    (mkLimits (config.max_vel_x c) (config.min_vel_x c) (config.acc_lim_x c)
              (config.max_vel_theta c) (config.acc_lim_theta c))
    (odom_topic_ s) (global_plan_ s)
    (config.max_vel_x c) (config.min_in_place_vel_theta c)
    (config.xy_goal_tolerance c) (config.yaw_goal_tolerance c)
    (config.max_lookahead c) costmap_resolution (acc_dt_ s)
    (config.initial_rotate_tolerance c) (has_new_path_ s) (robot_pose_ s).

(** ** Vocabulary of the further properties *)

(** [s'] has the configuration of [s]: every member but [controller_],
    [has_new_path_] and [robot_pose_] is the same. *)
Definition same_settings (s s' : Planner) : Prop :=
  initialized_ s' = initialized_ s
  /\ limits_ s' = limits_ s
  /\ odom_topic_ s' = odom_topic_ s
  /\ global_plan_ s' = global_plan_ s
  /\ max_vel_x_ s' = max_vel_x_ s
  /\ min_in_place_vel_theta_ s' = min_in_place_vel_theta_ s
  /\ xy_goal_tolerance_ s' = xy_goal_tolerance_ s
  /\ yaw_goal_tolerance_ s' = yaw_goal_tolerance_ s
  /\ max_lookahead_ s' = max_lookahead_ s
  /\ resolution_ s' = resolution_ s
  /\ acc_dt_ s' = acc_dt_ s
  /\ initial_rotate_tolerance_ s' = initial_rotate_tolerance_ s.

(** The cycle [c] with [max_vel_x_] set to [v] in its members. *)
Definition cycle_with_max_vel_x (v : R) (c : cycle) : cycle :=
  mkCycle (result c) (cmd_vel c) (with_max_vel_x v (planner c)) (attempts c).

(** The simulated pose [q] lies on the costmap, in a cell whose cost is
    below [INSCRIBED_INFLATED_OBSTACLE]. *)
Definition free_pose (host : Host) (base_to_odom : Transform host) (q : Pose)
  : Prop :=
  exists mx my,
    worldToMap host (x (position (doTransform host base_to_odom q)))
                    (y (position (doTransform host base_to_odom q)))
    = Some (mx, my)
    /\ (getCost host mx my < INSCRIBED_INFLATED_OBSTACLE)%N.

(** Every pose of [l] is one integration step away from the one before it,
    the first one from [prev], and is free. *)
Fixpoint stepped (host : Host) (resolution : R) (base_to_odom : Transform host)
    (prev : Pose) (l : list Pose) : Prop :=
  match l with
  | [] => True
  | q :: l' =>
      (exists vel_x vel_th,
          generate_next_pose host resolution vel_x vel_th prev = Some q)
      /\ free_pose host base_to_odom q
      /\ stepped host resolution base_to_odom q l'
  end.

(** Index [i] is the farthest candidate of [plan] within [max_lookahead]. *)
Definition farthest_candidate (s : Planner) (plan : list Pose) (i : nat) : Prop :=
  (1 <= i)%nat /\ within_lookahead s plan i
  /\ forall j, (i < j)%nat -> ~ within_lookahead s plan j.

(** * Properties *)

(** ** Comparisons and clamping *)

Lemma ltb_true x y : ltb x y = true <-> x < y.
Proof. unfold ltb; destruct (Rlt_dec x y); split; intros; try easy. Qed.

Lemma ltb_false x y : ltb x y = false <-> y <= x.
Proof.
  unfold ltb; destruct (Rlt_dec x y); split; intros; try easy; lra.
Qed.

Ltac case_ltb :=
  repeat match goal with
  | |- context [ltb ?a ?b] =>
      let E := fresh "E" in
      destruct (ltb a b) eqn:E;
      [apply ltb_true in E | apply ltb_false in E]
  end.

Ltac decide_ltb :=
  repeat match goal with
  | |- context [ltb ?a ?b] =>
      first [ rewrite (proj2 (ltb_true a b)) by lra
            | rewrite (proj2 (ltb_false a b)) by lra ]
  end.

Lemma min_max_clamp (v lo hi : R) :
  lo <= hi -> Rmin hi (Rmax lo v) = clamp v lo hi.
Proof.
  intros H. unfold clamp, Rmin, Rmax.
  case_ltb; repeat destruct (Rle_dec _ _); lra.
Qed.

Lemma max_min_clamp (v lo hi : R) :
  lo <= hi -> Rmax (Rmin v hi) lo = clamp v lo hi.
Proof.
  intros H. unfold clamp, Rmin, Rmax.
  case_ltb; repeat destruct (Rle_dec _ _); lra.
Qed.

Lemma clamp_bounds (v lo hi : R) : lo <= hi -> lo <= clamp v lo hi <= hi.
Proof. intros H. unfold clamp. case_ltb; lra. Qed.

Lemma sign_cases (v : R) : (v < 0 /\ sign v = -1) \/ (0 <= v /\ sign v = 1).
Proof. unfold sign. case_ltb; [left|right]; split; lra. Qed.

(** ** Square roots and angles *)

Lemma hypot_eq (a b c : R) : 0 <= c -> a * a + b * b = c * c -> hypot a b = c.
Proof. intros Hc H. unfold hypot. rewrite H. now apply sqrt_square. Qed.

Lemma hypot_lower (a b c : R) : 0 <= c -> c * c <= a * a + b * b -> c <= hypot a b.
Proof.
  intros Hc H. unfold hypot. rewrite <- (sqrt_square c Hc).
  apply sqrt_le_1_alt. exact H.
Qed.

Lemma atan2_0_1 : atan2 0 1 = 0.
Proof.
  unfold atan2. case_ltb; try lra.
  replace (0 / 1) with 0 by lra. apply atan_0.
Qed.

Lemma planar_yaw_identity : planar_yaw (mkQuaternion 0 0 0 1) = 0.
Proof. unfold planar_yaw; cbn. rewrite atan2_0_1. lra. Qed.

Lemma Rmax_right (a b : R) : a <= b -> Rmax a b = b.
Proof. intros H. unfold Rmax. destruct (Rle_dec a b); lra. Qed.

Lemma Rmin_left (a b : R) : a <= b -> Rmin a b = a.
Proof. intros H. unfold Rmin. destruct (Rle_dec a b); lra. Qed.

Lemma atan2_range (b a : R) : - PI < atan2 b a <= PI.
Proof.
  assert (Hpi := PI_RGT_0). assert (Hb := atan_bound (b / a)).
  unfold atan2. case_ltb; try lra.
  - assert (0 < b / a).
    { assert (/ a < 0) by now apply Rinv_neg. unfold Rdiv. nra. }
    assert (atan 0 < atan (b / a)) by now apply atan_increasing.
    rewrite atan_0 in *. lra.
  - assert (Hq : b / a <= 0).
    { assert (/ a < 0) by now apply Rinv_neg. unfold Rdiv. nra. }
    assert (atan (b / a) <= 0).
    { destruct Hq as [Hq|Hq].
      - apply atan_increasing in Hq. rewrite atan_0 in Hq. lra.
      - rewrite Hq, atan_0. lra. }
    lra.
Qed.

(** [planar_yaw] reads back the yaw that [set_yaw] writes. *)
Lemma planar_yaw_set (a b t : R) :
  - PI < t <= PI ->
  planar_yaw (mkQuaternion a b (sin (t / 2)) (cos (t / 2))) = t.
Proof.
  intros Ht. unfold planar_yaw. cbn.
  destruct (Req_dec t PI) as [->|Hne].
  - rewrite sin_PI2, cos_PI2. unfold atan2. case_ltb; lra.
  - assert (Hc : 0 < cos (t / 2)) by (apply cos_gt_0; lra).
    unfold atan2. apply ltb_true in Hc. rewrite Hc.
    change (sin (t / 2) / cos (t / 2)) with (tan (t / 2)).
    rewrite atan_tan; lra.
Qed.

(** ** setPlan *)

Lemma orient_loop_spec (plan : list Pose) (n : nat) :
  forall (i : nat) (oriented : list Pose),
    (i + n < length plan)%nat ->
    length oriented = length plan ->
    exists oriented',
      orient_loop n i plan oriented = Some oriented'
      /\ length oriented' = length plan
      /\ (forall j, (j < i \/ i + n <= j)%nat -> oriented' !! j = oriented !! j)
      /\ (forall j p next, (i <= j < i + n)%nat ->
            plan !! j = Some p -> plan !! (j + 1)%nat = Some next ->
            oriented' !! j =
              Some (set_yaw p (atan2 (y (position next) - y (position p))
                                     (x (position next) - x (position p))))).
Proof.
  induction n as [|n IH]; intros i oriented Hi Hlen.
  - exists oriented. repeat split; auto. intros; lia.
  - destruct (lookup_lt_is_Some_2 plan i) as [p Hp]; [lia|].
    destruct (lookup_lt_is_Some_2 oriented i) as [o Ho]; [lia|].
    destruct (lookup_lt_is_Some_2 plan (i + 1)) as [q Hq]; [lia|].
    cbn [orient_loop]. rewrite Hp, Ho, Hq. cbn.
    destruct (IH (i + 1)%nat
                (<[i := set_yaw p (atan2 (y (position q) - y (position p))
                                         (x (position q) - x (position p)))]>
                   oriented))
      as (o' & Hrun & Hlen' & Hout & Hin).
    + lia.
    + now rewrite length_insert.
    + exists o'. split; [exact Hrun|]. split; [exact Hlen'|]. split.
      * intros j Hj. rewrite Hout by lia.
        apply list_lookup_insert_ne. lia.
      * intros j p' next Hj Hp' Hnext.
        destruct (decide (j = i)) as [->|Hne].
        -- rewrite Hout by lia.
           rewrite Hp in Hp'. rewrite Hq in Hnext.
           injection Hp' as <-. injection Hnext as <-.
           apply list_lookup_insert_eq. lia.
        -- apply Hin; auto. lia.
Qed.

Lemma orient_bound_nonempty (l : list Pose) :
  l <> [] -> (Z.of_nat (length l) < 2 ^ 64)%Z ->
  Z.to_nat (orient_bound l) = (length l - 1)%nat.
Proof.
  intros Hne Hlt. unfold orient_bound, size_t_sub.
  destruct l as [|a l]; [congruence|].
  rewrite Z.mod_small; cbn [length] in *; lia.
Qed.

Lemma orient_plan_spec (plan : list Pose) :
  plan <> [] -> (Z.of_nat (length plan) < 2 ^ 64)%Z ->
  exists oriented,
    orient_plan plan = Some oriented
    /\ length oriented = length plan
    /\ (forall i p next,
          plan !! i = Some p -> plan !! (i + 1)%nat = Some next ->
          oriented !! i =
            Some (set_yaw p (atan2 (y (position next) - y (position p))
                                   (x (position next) - x (position p)))))
    /\ last oriented = last plan.
Proof.
  intros Hne Hlt. unfold orient_plan.
  destruct (last plan) as [b|] eqn:Hb; [|apply last_None in Hb; congruence].
  set (blank := replicate (length plan) default_pose).
  assert (Hblank : length blank = length plan) by apply length_replicate.
  assert (Hpos : (0 < length plan)%nat) by (destruct plan; cbn; [congruence|lia]).
  destruct (last blank) as [d|] eqn:Hd.
  2:{ apply last_None in Hd. rewrite Hd in Hblank. cbn in Hblank. lia. }
  cbn. set (start := <[(length blank - 1)%nat := b]> blank).
  assert (Hstart : length start = length plan)
    by (unfold start; now rewrite length_insert).
  rewrite orient_bound_nonempty.
  2:{ intros E. rewrite E in Hstart. cbn in Hstart. lia. }
  2:{ now rewrite Hstart. }
  destruct (orient_loop_spec plan (length start - 1) 0 start)
    as (o' & Hrun & Hlen' & Hout & Hin); [lia|exact Hstart|].
  exists o'. split; [exact Hrun|]. split; [exact Hlen'|]. split.
  - intros i p next Hp Hnext. apply (Hin i p next); auto.
    apply lookup_lt_Some in Hnext. lia.
  - rewrite last_lookup, Hlen', Hout by lia.
    unfold start. rewrite Hblank.
    replace (Init.Nat.pred (length plan)) with (length plan - 1)%nat by lia.
    rewrite list_lookup_insert_eq by lia. now symmetry.
Qed.

(** C2. For a non-empty plan, [setPlan] hands to [planner_util_] a plan of
    the same length in which every pose but the last is the input pose with
    its yaw set to [atan2] of the step to the following pose, and whose last
    pose is the last pose of the input, unchanged.  Where the input pose is
    planar and [getYaw] reads planar quaternions, the yaw read back from
    such a pose is that [atan2]. *)
Theorem setPlan_points_at_successor (host : Host) (s : Planner) (plan : list Pose) :
  initialized_ s = true ->
  plan <> [] ->
  (Z.of_nat (length plan) < 2 ^ 64)%Z ->
  exists oriented,
    setPlan host s plan =
      Some (if planner_setPlan host oriented
            then (true, with_has_new_path true (with_global_plan oriented s))
            else (false, s))
    /\ length oriented = length plan
    /\ (forall i p next,
          plan !! i = Some p -> plan !! (i + 1)%nat = Some next ->
          oriented !! i =
            Some (set_yaw p (atan2 (y (position next) - y (position p))
                                   (x (position next) - x (position p)))))
    /\ last oriented = last plan
    /\ (forall i p next,
          plan !! i = Some p -> plan !! (i + 1)%nat = Some next ->
          qx (orientation p) = 0 -> qy (orientation p) = 0 ->
          (forall t, - PI < t <= PI ->
             getYaw host (mkQuaternion 0 0 (sin (t / 2)) (cos (t / 2))) = t) ->
          exists o, oriented !! i = Some o
            /\ getYaw host (orientation o)
               = atan2 (y (position next) - y (position p))
                       (x (position next) - x (position p))).
Proof.
  intros Hinit Hne Hlt.
  destruct (orient_plan_spec plan Hne Hlt) as (o & Hrun & Hlen & Hyaw & Hlast).
  exists o. split; [|split; [exact Hlen|split; [exact Hyaw|split; [exact Hlast|]]]].
  - unfold setPlan. rewrite Hinit, Hrun. cbn.
    now destruct (planner_setPlan host o).
  - intros i p next Hp Hnext Hqx Hqy Hread.
    eexists. split; [apply (Hyaw i p next Hp Hnext)|].
    cbn. rewrite Hqx, Hqy. apply Hread, atan2_range.
Qed.

Lemma setPlan_points_at_successor_witness :
  exists oriented,
    setPlan (bench_host None at_rest failing_law free_grid free_cost)
            (bench_planner false) [origin; aside 1]
      = Some (true, with_has_new_path true
                      (with_global_plan oriented (bench_planner false)))
    /\ oriented !! 0%nat = Some (set_yaw origin (atan2 (1 - 0) (0 - 0)))
    /\ last oriented = Some (aside 1)
    /\ exists o, oriented !! 0%nat = Some o
                 /\ planar_yaw (orientation o) = PI / 2.
Proof.
  destruct (setPlan_points_at_successor
              (bench_host None at_rest failing_law free_grid free_cost)
              (bench_planner false) [origin; aside 1])
    as (o & Hset & _ & Hyaw & Hlast & Hread);
    [reflexivity | discriminate | reflexivity |].
  exists o. split; [exact Hset|]. split; [|split; [exact Hlast|]].
  - apply (Hyaw 0%nat origin (aside 1)); reflexivity.
  - destruct (Hread 0%nat origin (aside 1)) as (p & Hp & Hy);
      try reflexivity.
    + intros t Ht. now apply planar_yaw_set.
    + exists p. split; [exact Hp|]. cbn in Hy. rewrite Hy.
      unfold atan2. case_ltb; lra.
Defined.

(** C10. With the controller initialized, [setPlan] is defined exactly on
    the non-empty plans: on the empty plan [back()] has no element to return
    and the loop bound [size() - 1] wraps to 2^64 - 1. *)
Theorem setPlan_defined_iff_nonempty (host : Host) (s : Planner) (plan : list Pose) :
  initialized_ s = true ->
  (Z.of_nat (length plan) < 2 ^ 64)%Z ->
  (is_Some (setPlan host s plan) <-> plan <> [])
  /\ (plan = [] ->
      last plan = None
      /\ orient_bound (replicate (length plan) default_pose) = (2 ^ 64 - 1)%Z).
Proof.
  intros Hinit Hlt. split; [|intros ->; split; reflexivity].
  split.
  - intros [r Hr] ->. unfold setPlan in Hr. rewrite Hinit in Hr.
    cbn in Hr. discriminate.
  - intros Hne.
    destruct (orient_plan_spec plan Hne Hlt) as (o & Hrun & _).
    unfold setPlan. rewrite Hinit, Hrun. cbn.
    destruct (planner_setPlan host o); eauto.
Qed.

Lemma setPlan_defined_iff_nonempty_witness :
  is_Some (setPlan (bench_host None at_rest failing_law free_grid free_cost)
                   (bench_planner false) [origin])
  /\ ~ is_Some (setPlan (bench_host None at_rest failing_law free_grid free_cost)
                        (bench_planner false) []).
Proof.
  split.
  - apply (setPlan_defined_iff_nonempty
             (bench_host None at_rest failing_law free_grid free_cost)
             (bench_planner false) [origin]); [reflexivity | reflexivity | discriminate].
  - intros H.
    apply (setPlan_defined_iff_nonempty
             (bench_host None at_rest failing_law free_grid free_cost)
             (bench_planner false) []) in H; [congruence | reflexivity | reflexivity].
Defined.

(** ** rotateTowards *)

(** With velocity feedback the angular cap is the clamp of
    [|w| + acc_lim_theta * acc_dt] to [min_in_place_vel_theta, max_vel_theta]. *)
Lemma rotate_max_vel_th_clamp (host : Host) (s : Planner) :
  odom_topic_ s = true ->
  min_in_place_vel_theta_ s <= max_vel_theta (limits_ s) ->
  rotate_max_vel_th host s
  = clamp (Rabs (getYaw host (orientation (getRobotVel host)))
           + acc_lim_theta (limits_ s) * acc_dt_ s)
          (min_in_place_vel_theta_ s) (max_vel_theta (limits_ s))
  /\ min_in_place_vel_theta_ s <= rotate_max_vel_th host s.
Proof.
  intros Hodom Hle. unfold rotate_max_vel_th. rewrite Hodom.
  rewrite Rmin_comm, max_min_clamp by exact Hle.
  split; [reflexivity|]. now apply clamp_bounds.
Qed.


(** C8. [rotateTowards] always returns, with the yaw error and a command.
    The error is the bearing [atan2 y x] of a target farther than 0.5 and
    the target's own yaw otherwise.  The command has no linear part; its
    angular part is [sqrt (2 acc_lim_theta |error|)] clamped to
    [min_in_place_vel_theta, max_vel_th], negated for a negative error and
    taken as it is for a positive or zero one.  [max_vel_th] is
    [max_vel_theta] without velocity feedback, and with it
    [max (min max_vel_theta (|w| + acc_lim_theta acc_dt)) min_in_place_vel_theta],
    [w] being the measured angular velocity. *)
Theorem rotateTowards_command (host : Host) (s : Planner) (pose : Pose) :
  let px := x (position pose) in
  let py := y (position pose) in
  let lo := min_in_place_vel_theta_ s in
  let top := max_vel_theta (limits_ s) in
  let acc_limited :=
    Rabs (getYaw host (orientation (getRobotVel host)))
    + acc_lim_theta (limits_ s) * acc_dt_ s in
  let max_vel_th :=
    if odom_topic_ s then Rmax (Rmin top acc_limited) lo else top in
  let yaw_error := fst (rotateTowards host s pose) in
  let cmd := snd (rotateTowards host s pose) in
  let magnitude :=
    clamp (sqrt (2 * acc_lim_theta (limits_ s) * Rabs yaw_error)) lo max_vel_th in
  (0.5 < hypot px py -> yaw_error = atan2 py px)
  /\ (hypot px py <= 0.5 -> yaw_error = getYaw host (orientation pose))
  /\ linear_x cmd = 0
  /\ (odom_topic_ s = true -> lo <= top ->
      max_vel_th = clamp acc_limited lo top)
  /\ (lo <= max_vel_th ->
      (yaw_error < 0 -> angular_z cmd = - magnitude)
      /\ (0 <= yaw_error -> angular_z cmd = magnitude)).
Proof.
  intros px py lo top acc_limited max_vel_th yaw_error cmd magnitude.
  change max_vel_th with (rotate_max_vel_th host s) in *.
  change yaw_error with (rotate_yaw host pose) in *.
  split; [|split; [|split; [reflexivity|split]]].
  - intros Hfar. unfold rotate_yaw. fold px py.
    apply ltb_true in Hfar. now rewrite Hfar.
  - intros Hnear. unfold rotate_yaw. fold px py.
    apply ltb_false in Hnear. now rewrite Hnear.
  - intros Hodom Hle. now apply rotate_max_vel_th_clamp.
  - intros Hle. subst cmd magnitude. unfold rotateTowards. cbn [snd angular_z].
    fold lo. rewrite min_max_clamp by exact Hle.
    destruct (sign_cases (rotate_yaw host pose)) as [[Hneg ->]|[Hpos ->]];
      split; intros; lra.
Qed.

Lemma rotateTowards_command_witness :
  rotateTowards (bench_host None at_rest failing_law free_grid free_cost)
                (bench_planner true) (aside (-1))
  = (- (PI / 2), mkTwist 0 (- 0.3)).
Proof.
  set (host := bench_host None at_rest failing_law free_grid free_cost).
  assert (Hpi := PI_RGT_0).
  assert (Hdist : hypot 0 (-1) = 1) by (apply hypot_eq; lra).
  assert (Hbearing : atan2 (-1) 0 = - (PI / 2)) by (unfold atan2; case_ltb; lra).
  assert (Hcap : Rmax (Rmin 1 (Rabs (planar_yaw (mkQuaternion 0 0 0 1)) + 1 * 0.25)) 0.3
                 = 0.3).
  { rewrite planar_yaw_identity, Rabs_R0.
    unfold Rmin, Rmax. repeat destruct (Rle_dec _ _); lra. }
  destruct (rotateTowards_command host (bench_planner true) (aside (-1)))
    as (Hfar & _ & Hlin & _ & Hang).
  cbn [x y position aside] in Hfar. rewrite Hdist in Hfar.
  specialize (Hfar ltac:(lra)). rewrite Hbearing in Hfar.
  cbn [min_in_place_vel_theta_ limits_ bench_planner odom_topic_ max_vel_theta
       bench_limits acc_lim_theta acc_dt_ getYaw getRobotVel host bench_host
       at_rest forward_velocity orientation] in Hang.
  rewrite Hcap, Hfar in Hang.
  destruct Hang as [Hneg _]; [lra|]. specialize (Hneg ltac:(lra)).
  assert (Hmag : clamp (sqrt (2 * 1 * Rabs (- (PI / 2)))) 0.3 0.3 = 0.3).
  { unfold clamp. case_ltb; lra. }
  rewrite Hmag in Hneg.
  destruct (rotateTowards host (bench_planner true) (aside (-1))) as [yaw [lin ang]].
  cbn in Hfar, Hlin, Hneg. subst. f_equal. f_equal. lra.
Defined.

(** ** The goal branch and isGoalReached *)

Lemma rotateTowards_with_robot_pose (host : Host) (s : Planner) (p pose : Pose) :
  rotateTowards host (with_robot_pose p s) pose = rotateTowards host s pose.
Proof. reflexivity. Qed.

Lemma isGoalReached_true (host : Host) (s : Planner) :
  fst (isGoalReached host s) = true <->
  initialized_ s = true /\
  exists robot goal,
    getRobotPose host = Some robot /\ getGoal host = Some goal /\
    hypot (x (position goal) - x (position robot))
          (y (position goal) - y (position robot)) < xy_goal_tolerance_ s /\
    Rabs (shortest_angular_distance host (getYaw host (orientation goal))
                                         (getYaw host (orientation robot)))
      < yaw_goal_tolerance_ s.
Proof.
  unfold isGoalReached.
  destruct (initialized_ s); cbn.
  2:{ split; [discriminate|]. intros [? _]. discriminate. }
  destruct (getRobotPose host) as [robot|]; cbn.
  2:{ split; [discriminate|]. intros (_ & ? & ? & ? & _). discriminate. }
  destruct (getGoal host) as [goal|]; cbn.
  2:{ split; [discriminate|]. intros (_ & ? & ? & _ & ? & _). discriminate. }
  rewrite andb_true_iff, !ltb_true. split.
  - intros [Hd Ha]. split; [reflexivity|]. exists robot, goal. auto.
  - intros (_ & r & g & Hr & Hg & Hd & Ha).
    injection Hr as <-. injection Hg as <-. auto.
Qed.





(** ** The cap on the forward velocity *)

(** C5. With velocity feedback the law receives
    [max (min (v + acc_lim_x * acc_dt) max_vel_x_) min_vel_x] as its maximum
    forward velocity, [max_vel_x_] being the cached maximum: the configured
    [max_vel_x] after a reconfiguration, and after a message of the velocity
    topic the received value brought into [min_vel_x, max_vel_x].  It is the
    clamp of [v + acc_lim_x * acc_dt] to [min_vel_x, max_vel_x_] when that
    interval is not empty; it never exceeds the larger of
    [v + acc_lim_x * acc_dt] and [min_vel_x], nor the cached maximum when
    [min_vel_x] is below it.  Without feedback nothing is pushed: the law
    keeps the configured [max_vel_x] it was built with at the last
    reconfiguration, whatever the velocity topic has sent since. *)
Theorem velocity_cap (host : Host) (s : Planner) :
  let v := x (position (getRobotVel host)) + acc_lim_x (limits_ s) * acc_dt_ s in
  let pushed := law_max_vel_x (controller_ (configure_velocity host s)) in
  (odom_topic_ s = true ->
     controller_ (configure_velocity host s) =
       mkVelocityLimits (min_vel_x (limits_ s))
                        (Rmax (Rmin v (max_vel_x_ s)) (min_vel_x (limits_ s)))
                        (max_vel_theta (limits_ s))
     /\ (min_vel_x (limits_ s) <= max_vel_x_ s ->
         pushed = clamp v (min_vel_x (limits_ s)) (max_vel_x_ s)
         /\ pushed <= max_vel_x_ s)
     /\ pushed <= Rmax v (min_vel_x (limits_ s))
     /\ (min_vel_x (limits_ s) <= v -> pushed <= v))
  /\ (odom_topic_ s = false -> configure_velocity host s = s)
  /\ (forall (costmap_resolution : R) (c : config.t),
        let s1 := reconfigureCallback costmap_resolution c s in
        max_vel_x_ s1 = config.max_vel_x c
        /\ law_max_vel_x (controller_ s1) = config.max_vel_x c
        /\ forall data : R,
             let s2 := velocityCallback s1 data in
             max_vel_x_ s2
             = Rmax (Rmin data (config.max_vel_x c)) (config.min_vel_x c)
             /\ (config.min_vel_x c <= config.max_vel_x c ->
                 max_vel_x_ s2 <= config.max_vel_x c)
             /\ (odom_topic_ s = false ->
                 law_max_vel_x (controller_ (configure_velocity host s1))
                 = config.max_vel_x c
                 /\ law_max_vel_x (controller_ (configure_velocity host s2))
                    = config.max_vel_x c)).
Proof.
  intros v pushed. subst pushed. unfold configure_velocity.
  split; [|split].
  - intros ->. cbn. fold v. split; [reflexivity|].
    unfold capped_max_vel_x. fold v. split; [|split].
    + intros Hle. rewrite max_min_clamp by exact Hle.
      split; [reflexivity|]. now apply clamp_bounds.
    + unfold Rmax, Rmin. repeat destruct (Rle_dec _ _); lra.
    + intros Hle. unfold Rmax, Rmin. repeat destruct (Rle_dec _ _); lra.
  - intros ->. reflexivity.
  - intros costmap_resolution c.
    split; [reflexivity|]. split; [reflexivity|].
    intros data. split; [reflexivity|]. split.
    + intros Hle. unfold velocityCallback. cbn.
      unfold Rmax, Rmin. repeat destruct (Rle_dec _ _); lra.
    + intros Hodom. cbn. rewrite Hodom. split; reflexivity.
Qed.

Lemma velocity_cap_witness :
  let host := bench_host None (forward_velocity 0.4) failing_law free_grid free_cost in
  let c := config.mk 0.5 0.1 0.2 1 1 0.1 0.1 0.3 2 0 in
  let slowed odom :=
    velocityCallback (reconfigureCallback 1 c (bench_planner odom)) 0.25 in
  law_max_vel_x (controller_ (configure_velocity host (slowed true)))
    = clamp (0.4 + 0.2 * 0.25) 0.1 0.25
  /\ law_max_vel_x (controller_ (configure_velocity host (slowed true))) = 0.25
  /\ law_max_vel_x (controller_ (configure_velocity host (slowed false))) = 0.5.
Proof.
  intros host c slowed.
  destruct (velocity_cap host (slowed true)) as (Hon & _ & _).
  destruct (velocity_cap host (bench_planner false)) as (_ & _ & Hoff).
  destruct (Hon eq_refl) as (_ & Hclamp & _ & _).
  assert (Hcached : max_vel_x_ (slowed true) = 0.25).
  { cbn. unfold Rmax, Rmin. repeat destruct (Rle_dec _ _); lra. }
  assert (Hle : min_vel_x (limits_ (slowed true)) <= max_vel_x_ (slowed true))
    by (rewrite Hcached; cbn; lra).
  destruct (Hclamp Hle) as [Hpushed _].
  rewrite Hcached in Hpushed.
  split; [exact Hpushed|]. split.
  - rewrite Hpushed. cbn. unfold clamp. decide_ltb. reflexivity.
  - destruct (Hoff 1 c) as (_ & _ & Hdata).
    destruct (Hdata 0.25) as (_ & _ & Hlaw).
    destruct (Hlaw eq_refl) as [_ Hlaw2]. exact Hlaw2.
Defined.

(** C5, as stated, fails, in two ways.  A robot at rest whose acceleration
    allows 0.05 in one period, with [min_vel_x = 0.1], gets 0.1 as its
    maximum: the floor wins over the acceleration bound.  And once the
    velocity topic has sent 0.25, a robot moving at 0.4 gets 0.25, where
    the clamp to the configured [max_vel_x = 0.5] would give 0.45. *)
Lemma velocity_cap_exceeds_acceleration_bound :
  let resting := bench_host None at_rest failing_law free_grid free_cost in
  let moving := bench_host None (forward_velocity 0.4) failing_law
                           free_grid free_cost in
  let s := bench_planner true in
  let slowed := velocityCallback s 0.25 in
  (odom_topic_ s = true
   /\ ~ (law_max_vel_x (controller_ (configure_velocity resting s))
         <= x (position (getRobotVel resting)) + acc_lim_x (limits_ s) * acc_dt_ s))
  /\ (odom_topic_ slowed = true
      /\ max_vel_x (limits_ slowed) = 0.5
      /\ law_max_vel_x (controller_ (configure_velocity moving slowed)) = 0.25
      /\ clamp (x (position (getRobotVel moving))
                + acc_lim_x (limits_ slowed) * acc_dt_ slowed)
               (min_vel_x (limits_ slowed)) (max_vel_x (limits_ slowed)) = 0.45).
Proof.
  intros resting moving s slowed. split.
  - split; [reflexivity|].
    cbn. unfold capped_max_vel_x. cbn.
    rewrite Rmin_left by lra. rewrite Rmax_right by lra. lra.
  - split; [reflexivity|]. split; [reflexivity|]. split.
    + cbn. unfold capped_max_vel_x. cbn.
      unfold Rmax, Rmin. repeat destruct (Rle_dec _ _); lra.
    + cbn. unfold clamp. decide_ltb. lra.
Qed.

(** ** One iteration of the simulation loop *)

Lemma fdiv_nonzero (a b : R) : b <> 0 -> fdiv a b = Some (a / b).
Proof. intros H. unfold fdiv. destruct (Req_dec_T b 0); [contradiction|reflexivity]. Qed.

Lemma fdiv_zero (a : R) : fdiv a 0 = None.
Proof. unfold fdiv. destruct (Req_dec_T 0 0); [reflexivity|contradiction]. Qed.

Lemma rollout_step (host : Host) (fuel : nat) (s : Planner)
    (base_to_odom : Transform host) (pose : Pose) (path : list Pose)
    (cmd : Twist) (ex ey error_angle vel_x vel_th : R) :
  relative_error host pose path = (ex, ey, error_angle) ->
  approach host (controller_ s) ex ey error_angle = Some (vel_x, vel_th) ->
  (path <> [] -> resolution_ s <= hypot ex ey) ->
  rollout host (S fuel) s base_to_odom pose path cmd =
    let cmd' := match path with [] => mkTwist vel_x vel_th | _ => cmd end in
    match generate_next_pose host (resolution_ s) vel_x vel_th (start_pose path) with
    | None => (DivisionByZero, cmd')
    | Some next_pose =>
        match check_pose host base_to_odom next_pose with
        | Some e => (e, cmd')
        | None => rollout host fuel s base_to_odom pose (path ++ [next_pose]) cmd'
        end
    end.
Proof.
  intros Herr Happ Hfar. cbn [rollout]. rewrite Herr, Happ.
  destruct path as [|p path]; [reflexivity|].
  assert (Hnot : ltb (hypot ex ey) (resolution_ s) = false)
    by (apply ltb_false, Hfar; discriminate).
  rewrite Hnot. reflexivity.
Qed.

(** C1. An integration step computes [dt = resolution / vel_x], moves the
    position by [dt * vel_x] along the heading the step starts with, then
    advances the yaw by [dt * vel_th]; the pose so obtained is appended to
    the simulated path. *)
Theorem integration_step (host : Host) (fuel : nat) (s : Planner)
    (base_to_odom : Transform host) (pose : Pose) (path : list Pose)
    (cmd : Twist) (ex ey error_angle vel_x vel_th : R) :
  relative_error host pose path = (ex, ey, error_angle) ->
  approach host (controller_ s) ex ey error_angle = Some (vel_x, vel_th) ->
  (path <> [] -> resolution_ s <= hypot ex ey) ->
  vel_x <> 0 ->
  let start := start_pose path in
  let dt := resolution_ s / vel_x in
  let yaw := getYaw host (orientation start) in
  let next_pose :=
    mkPose (mkPoint (x (position start) + dt * vel_x * cos yaw)
                    (y (position start) + dt * vel_x * sin yaw))
           (mkQuaternion (qx (orientation start)) (qy (orientation start))
                         (sin ((yaw + dt * vel_th) / 2))
                         (cos ((yaw + dt * vel_th) / 2))) in
  let cmd' := match path with [] => mkTwist vel_x vel_th | _ => cmd end in
  generate_next_pose host (resolution_ s) vel_x vel_th start = Some next_pose
  /\ rollout host (S fuel) s base_to_odom pose path cmd =
       match check_pose host base_to_odom next_pose with
       | Some e => (e, cmd')
       | None => rollout host fuel s base_to_odom pose (path ++ [next_pose]) cmd'
       end.
Proof.
  intros Herr Happ Hfar Hvel start dt yaw next_pose cmd'.
  assert (Hnext : generate_next_pose host (resolution_ s) vel_x vel_th start
                  = Some next_pose).
  { unfold generate_next_pose. rewrite fdiv_nonzero by exact Hvel. reflexivity. }
  split; [exact Hnext|].
  rewrite (rollout_step host fuel s base_to_odom pose path cmd
             ex ey error_angle vel_x vel_th Herr Happ Hfar).
  cbn zeta. fold start. rewrite Hnext. reflexivity.
Qed.

Lemma integration_step_witness :
  let host := bench_host None at_rest (constant_law 1 PI) free_grid free_cost in
  generate_next_pose host 1 1 PI origin
  = Some (mkPose (mkPoint 1 0) (mkQuaternion 0 0 1 0)).
Proof.
  intros host.
  destruct (integration_step host 0 (bench_planner false) tt (aside 5) []
              (mkTwist 0 0) 0 5 (planar_yaw (mkQuaternion 0 0 0 1)) 1 PI)
    as [H _]; [reflexivity | reflexivity | congruence | lra |].
  etransitivity; [exact H|]. cbn.
  rewrite planar_yaw_identity, cos_0, sin_0.
  replace ((0 + 1 / 1 * PI) / 2) with (PI / 2) by lra.
  rewrite sin_PI2, cos_PI2. f_equal. f_equal. f_equal; lra.
Defined.

(** C1, as stated, fails: from the origin with [vel_th = PI] the code moves
    the pose to [x = 1], along the old heading; along the new heading it
    would be [x = -1]. *)
Lemma integration_not_heading_first :
  let host := bench_host None at_rest (constant_law 1 PI) free_grid free_cost in
  generate_next_pose host 1 1 PI origin
  <> integrate_heading_first host 1 1 PI origin.
Proof.
  intros host. unfold generate_next_pose, integrate_heading_first.
  rewrite fdiv_nonzero by lra. cbn.
  rewrite planar_yaw_identity. intros Heq.
  injection Heq as Hx _.
  replace (0 + 1 / 1 * PI) with PI in Hx by lra.
  rewrite cos_0, cos_PI in Hx. lra.
Qed.

(** ** The exits of the simulation loop *)

Lemma rollout_more_fuel (host : Host) (s : Planner)
    (base_to_odom : Transform host) (pose : Pose) (fuel : nat) :
  forall (fuel' : nat) (path : list Pose) (cmd : Twist),
    (fuel <= fuel')%nat ->
    fst (rollout host fuel s base_to_odom pose path cmd) <> OutOfFuel ->
    rollout host fuel' s base_to_odom pose path cmd
    = rollout host fuel s base_to_odom pose path cmd.
Proof.
  induction fuel as [|fuel IH]; intros fuel' path cmd Hle Hend.
  - cbn in Hend. congruence.
  - destruct fuel' as [|fuel']; [lia|].
    cbn [rollout] in *.
    destruct (relative_error host pose path) as [[ex ey] error_angle].
    destruct (approach host (controller_ s) ex ey error_angle) as [[vel_x vel_th]|];
      [|reflexivity].
    destruct (match path with [] => false | _ => ltb (hypot ex ey) (resolution_ s) end);
      [reflexivity|].
    destruct (generate_next_pose host (resolution_ s) vel_x vel_th (start_pose path))
      as [next_pose|]; [|reflexivity].
    destruct (check_pose host base_to_odom next_pose); [reflexivity|].
    apply IH; [lia|exact Hend].
Qed.

Lemma rollout_division_by_zero (host : Host) (fuel : nat) (s : Planner)
    (base_to_odom : Transform host) (pose : Pose) (path : list Pose)
    (cmd : Twist) (ex ey error_angle vel_th : R) :
  relative_error host pose path = (ex, ey, error_angle) ->
  approach host (controller_ s) ex ey error_angle = Some (0, vel_th) ->
  (path <> [] -> resolution_ s <= hypot ex ey) ->
  fst (rollout host (S fuel) s base_to_odom pose path cmd) = DivisionByZero.
Proof.
  intros Herr Happ Hfar.
  rewrite (rollout_step host fuel s base_to_odom pose path cmd
             ex ey error_angle 0 vel_th Herr Happ Hfar).
  cbn zeta. unfold generate_next_pose. rewrite fdiv_zero. reflexivity.
Qed.

Lemma spinning_yaw (p : Pose) :
  spinning p ->
  (x (position p) = 1 /\ cos (planar_yaw (orientation p)) = -1
   \/ x (position p) = 0 /\ cos (planar_yaw (orientation p)) = 1)
  /\ sin (planar_yaw (orientation p)) = 0.
Proof.
  assert (Hpi := PI_RGT_0).
  intros [_ [(Hx & Hz & Hw)|[(Hx & Hz & Hw)|[(Hx & Hz & Hw)|(Hx & Hz & Hw)]]]];
    unfold planar_yaw; rewrite Hz, Hw.
  - assert (E : 2 * atan2 1 0 = PI) by (unfold atan2; case_ltb; lra).
    rewrite E, cos_PI, sin_PI. auto.
  - assert (E : 2 * atan2 0 (-1) = 2 * PI).
    { unfold atan2; case_ltb; try lra.
      replace (0 / -1) with 0 by lra. rewrite atan_0. lra. }
    rewrite E, cos_2PI, sin_2PI. auto.
  - assert (E : 2 * atan2 (-1) 0 = - PI) by (unfold atan2; case_ltb; lra).
    rewrite E, cos_neg, sin_neg, cos_PI, sin_PI. split; [auto|lra].
  - assert (E : 2 * atan2 0 1 = 0) by (rewrite atan2_0_1; lra).
    rewrite E, cos_0, sin_0. auto.
Qed.

Lemma spinning_step (p : Pose) :
  spinning p ->
  exists next,
    generate_next_pose (bench_host None at_rest (constant_law 1 PI) pen_grid free_cost)
                       1 1 PI p = Some next
    /\ spinning next.
Proof.
  assert (Hpi := PI_RGT_0).
  intros Hp. destruct (spinning_yaw p Hp) as [Hcos Hsin].
  destruct Hp as [Hy Hq].
  unfold generate_next_pose. rewrite fdiv_nonzero by lra.
  eexists. split; [reflexivity|].
  cbn. unfold spinning. cbn. rewrite Hsin, Hy. split; [lra|].
  destruct Hq as [(Hx & Hz & Hw)|[(Hx & Hz & Hw)|[(Hx & Hz & Hw)|(Hx & Hz & Hw)]]];
    unfold planar_yaw in *; rewrite Hz, Hw in *.
  - assert (E : 2 * atan2 1 0 = PI) by (unfold atan2; case_ltb; lra).
    rewrite E in *. right; left.
    replace ((PI + 1 / 1 * PI) / 2) with PI by lra.
    rewrite cos_PI, sin_PI. rewrite Hx. repeat split; lra.
  - assert (E : 2 * atan2 0 (-1) = 2 * PI).
    { unfold atan2; case_ltb; try lra.
      replace (0 / -1) with 0 by lra. rewrite atan_0. lra. }
    rewrite E in *. right; right; left.
    replace ((2 * PI + 1 / 1 * PI) / 2) with (3 * (PI / 2)) by lra.
    rewrite cos_2PI, sin_3PI2, cos_3PI2, Hx. repeat split; lra.
  - assert (E : 2 * atan2 (-1) 0 = - PI) by (unfold atan2; case_ltb; lra).
    rewrite E in *. right; right; right.
    replace ((- PI + 1 / 1 * PI) / 2) with 0 by lra.
    rewrite cos_neg, cos_PI, sin_0, cos_0, Hx. repeat split; lra.
  - assert (E : 2 * atan2 0 1 = 0) by (rewrite atan2_0_1; lra).
    rewrite E in *. left.
    replace ((0 + 1 / 1 * PI) / 2) with (PI / 2) by lra.
    rewrite cos_0, sin_PI2, cos_PI2, Hx. repeat split; lra.
Qed.

(** On that costmap, a law that always commands [vel_x = 1], [vel_th = PI]
    makes the simulated pose turn back and forth without ever approaching a
    target at [(0, 5)] or leaving the costmap: the loop never ends. *)
Lemma rollout_spins_forever (fuel : nat) :
  forall (path : list Pose) (cmd : Twist),
    (path = [] \/ exists p, last path = Some p /\ spinning p) ->
    fst (rollout (bench_host None at_rest (constant_law 1 PI) pen_grid free_cost)
                 fuel (bench_planner false) tt (aside 5) path cmd) = OutOfFuel.
Proof.
  set (host := bench_host None at_rest (constant_law 1 PI) pen_grid free_cost).
  induction fuel as [|fuel IH]; intros path cmd Hinv; [reflexivity|].
  assert (Hstart : spinning (start_pose path)).
  { unfold start_pose. destruct Hinv as [->|(p & -> & Hp)]; [|exact Hp].
    cbn. unfold spinning. cbn. auto 10. }
  destruct (relative_error host (aside 5) path) as [[ex ey] error_angle] eqn:Herr.
  assert (Hfar : path <> [] -> resolution_ (bench_planner false) <= hypot ex ey).
  { intros _. cbn. unfold relative_error in Herr.
    destruct Hinv as [->|(p & Hlast & Hp)].
    - cbn in Herr. injection Herr as <- <- _. apply hypot_lower; lra.
    - rewrite Hlast in Herr. cbn in Herr.
      destruct (spinning_yaw p Hp) as [Hcos Hsin]. destruct Hp as [Hy _].
      rewrite cos_neg, sin_neg, Hsin, Hy in Herr.
      injection Herr as <- <- _.
      apply hypot_lower; [lra|].
      destruct Hcos as [[Hx ->]|[Hx ->]]; rewrite Hx; nra. }
  rewrite (rollout_step host fuel (bench_planner false) tt (aside 5) path cmd
             ex ey error_angle 1 PI Herr eq_refl Hfar).
  cbn zeta.
  destruct (spinning_step _ Hstart) as (next & Hnext & Hspin).
  change (resolution_ (bench_planner false)) with 1.
  fold host in Hnext. rewrite Hnext.
  assert (Hfree : check_pose host tt next = None).
  { unfold check_pose. cbn. unfold pen_grid.
    destruct Hspin as [Hy [(Hx & _)|[(Hx & _)|[(Hx & _)|(Hx & _)]]]];
      rewrite Hx, Hy; decide_ltb; reflexivity. }
  rewrite Hfree. apply IH. right. exists next. split; [apply last_snoc|exact Hspin].
Qed.

(** An iteration at which one of the conditions of [leaves_loop] holds
    leaves the loop, with the exit of that condition. *)
Lemma rollout_leaves (host : Host) (fuel : nat) (s : Planner)
    (base_to_odom : Transform host) (pose : Pose) (path : list Pose)
    (cmd : Twist) (e : sim_exit) :
  leaves_loop host s base_to_odom pose path e ->
  fst (rollout host (S fuel) s base_to_odom pose path cmd) = e.
Proof.
  intros Hleave.
  destruct Hleave
    as [ex ey error_angle vel_x vel_th Herr Happ Hne Hconv
       |ex ey error_angle Herr Happ
       |ex ey error_angle vel_th Herr Happ Hfar
       |ex ey error_angle vel_x vel_th next_pose Herr Happ Hfar Hnext Hmap
       |ex ey error_angle vel_x vel_th next_pose mx my Herr Happ Hfar Hnext Hmap Hcost].
  - cbn [rollout]. rewrite Herr, Happ.
    destruct path as [|p path]; [congruence|].
    apply ltb_true in Hconv. now rewrite Hconv.
  - cbn [rollout]. now rewrite Herr, Happ.
  - eapply rollout_division_by_zero; eauto.
  - rewrite (rollout_step host fuel s base_to_odom pose path cmd
               ex ey error_angle vel_x vel_th Herr Happ Hfar).
    cbn zeta. rewrite Hnext. unfold check_pose. now rewrite Hmap.
  - rewrite (rollout_step host fuel s base_to_odom pose path cmd
               ex ey error_angle vel_x vel_th Herr Happ Hfar).
    cbn zeta. rewrite Hnext. unfold check_pose. rewrite Hmap.
    apply N.leb_le in Hcost. now rewrite Hcost.
Qed.

(** A run that has ended has simulated some poses, each of which passed
    the checks of the costmap, and then met one of the conditions of
    [leaves_loop]. *)
Lemma rollout_left (host : Host) (s : Planner) (base_to_odom : Transform host)
    (pose : Pose) (fuel : nat) :
  forall (path : list Pose) (cmd : Twist),
    fst (rollout host fuel s base_to_odom pose path cmd) <> OutOfFuel ->
    exists steps,
      (length steps < fuel)%nat
      /\ Forall (free_pose host base_to_odom) steps
      /\ leaves_loop host s base_to_odom pose (path ++ steps)
           (fst (rollout host fuel s base_to_odom pose path cmd)).
Proof.
  induction fuel as [|fuel IH]; intros path cmd Hend.
  { cbn in Hend. congruence. }
  cbn [rollout] in *.
  destruct (relative_error host pose path) as [[ex ey] error_angle] eqn:Herr.
  destruct (approach host (controller_ s) ex ey error_angle)
    as [[vel_x vel_th]|] eqn:Happ.
  2:{ exists []. rewrite app_nil_r. cbn [fst length].
      split; [lia|]. split; [constructor|]. eapply leaves_law_failure; eauto. }
  destruct (match path with [] => false | _ => ltb (hypot ex ey) (resolution_ s) end)
    eqn:Hconv.
  { exists []. rewrite app_nil_r. cbn [fst length].
    split; [lia|]. split; [constructor|].
    destruct path as [|p path]; [discriminate|].
    apply ltb_true in Hconv. eapply leaves_converged; eauto; discriminate. }
  assert (Hfar : path <> [] -> resolution_ s <= hypot ex ey).
  { intros Hne. destruct path as [|p path]; [congruence|].
    now apply ltb_false. }
  destruct (generate_next_pose host (resolution_ s) vel_x vel_th (start_pose path))
    as [next_pose|] eqn:Hnext.
  2:{ exists []. rewrite app_nil_r. cbn [fst length].
      split; [lia|]. split; [constructor|].
      assert (Hzero : vel_x = 0).
      { unfold generate_next_pose, fdiv in Hnext.
        destruct (Req_dec_T vel_x 0); [assumption|discriminate]. }
      subst vel_x. eapply leaves_undefined_step; eauto. }
  unfold check_pose in *.
  destruct (worldToMap host _ _) as [[mx my]|] eqn:Hmap.
  2:{ exists []. rewrite app_nil_r. cbn [fst length].
      split; [lia|]. split; [constructor|]. eapply leaves_off_costmap; eauto. }
  destruct (N.leb_spec INSCRIBED_INFLATED_OBSTACLE (getCost host mx my))
    as [Hcost|Hcost].
  { exists []. rewrite app_nil_r. cbn [fst length].
    split; [lia|]. split; [constructor|]. eapply leaves_collision; eauto. }
  destruct (IH _ _ Hend) as (steps & Hlen & Hfree & Hleave).
  exists (next_pose :: steps). cbn [length].
  split; [lia|]. split.
  - constructor; [|exact Hfree]. exists mx, my. auto.
  - rewrite <- app_assoc in Hleave. exact Hleave.
Qed.

(** C9. The step of the loop divides [resolution] by [vel_x] whatever
    [vel_x] is: when the law answers [vel_x = 0] at an iteration that is not
    the converged one, the step has no value.  The loop is left exactly
    through the conditions of [leaves_loop]: an iteration that meets one of
    them leaves the loop with its exit, and a run that has ended went
    through simulated poses that all passed the checks of the costmap, up
    to an iteration that met the condition of its exit: convergence, a
    rejection by the costmap, a failure of the law, or that division.  A run
    that has ended is the same with any larger number of iterations, and no
    number of iterations bounds every run: on a small obstacle-free
    costmap, with a law that always answers [(1, PI)], the loop is still
    running after any number of them. *)
Theorem rollout_exits (host : Host) (s : Planner)
    (base_to_odom : Transform host) (pose : Pose) :
  (forall fuel path cmd ex ey error_angle vel_th,
      relative_error host pose path = (ex, ey, error_angle) ->
      approach host (controller_ s) ex ey error_angle = Some (0, vel_th) ->
      (path <> [] -> resolution_ s <= hypot ex ey) ->
      generate_next_pose host (resolution_ s) 0 vel_th (start_pose path) = None
      /\ fst (rollout host (S fuel) s base_to_odom pose path cmd) = DivisionByZero)
  /\ (forall fuel path cmd e,
        leaves_loop host s base_to_odom pose path e ->
        fst (rollout host (S fuel) s base_to_odom pose path cmd) = e)
  /\ (forall fuel path cmd,
        let e := fst (rollout host fuel s base_to_odom pose path cmd) in
        e <> OutOfFuel ->
        exists steps,
          (length steps < fuel)%nat
          /\ Forall (free_pose host base_to_odom) steps
          /\ leaves_loop host s base_to_odom pose (path ++ steps) e)
  /\ (forall fuel fuel' path cmd,
        (fuel <= fuel')%nat ->
        fst (rollout host fuel s base_to_odom pose path cmd) <> OutOfFuel ->
        rollout host fuel' s base_to_odom pose path cmd
        = rollout host fuel s base_to_odom pose path cmd)
  /\ (forall fuel cmd,
        fst (rollout (bench_host None at_rest (constant_law 1 PI) pen_grid free_cost)
                     fuel (bench_planner false) tt (aside 5) [] cmd) = OutOfFuel).
Proof.
  split; [|split; [|split; [|split]]].
  - intros fuel path cmd ex ey error_angle vel_th Herr Happ Hfar. split.
    + unfold generate_next_pose. now rewrite fdiv_zero.
    + eapply rollout_division_by_zero; eauto.
  - intros fuel path cmd e. apply rollout_leaves.
  - intros fuel path cmd e. apply rollout_left.
  - intros fuel fuel' path cmd. apply rollout_more_fuel.
  - intros fuel cmd. apply rollout_spins_forever. now left.
Qed.

Lemma rollout_exits_witness :
  let stalled := bench_host None at_rest (constant_law 0 1) free_grid free_cost in
  let crowded := bench_host None at_rest (constant_law 1 0) free_grid lethal_cost in
  fst (rollout stalled 1 (bench_planner false) tt (ahead 2) [] (mkTwist 0 0))
  = DivisionByZero
  /\ exists steps,
       Forall (free_pose crowded tt) steps
       /\ leaves_loop crowded (bench_planner false) tt (ahead 2) steps Collision.
Proof.
  intros stalled crowded. split.
  - destruct (rollout_exits stalled (bench_planner false) tt (ahead 2)) as [H _].
    apply (H 0%nat [] (mkTwist 0 0) 2 0 (planar_yaw (mkQuaternion 0 0 0 1)) 1);
      [reflexivity | reflexivity | congruence].
  - destruct (rollout_exits crowded (bench_planner false) tt (ahead 2))
      as (_ & _ & H & _).
    assert (Hrun : fst (rollout crowded 1 (bench_planner false) tt (ahead 2) []
                                (mkTwist 0 0)) = Collision).
    { rewrite (rollout_step crowded 0 (bench_planner false) tt (ahead 2) []
                 (mkTwist 0 0) 2 0 (planar_yaw (mkQuaternion 0 0 0 1)) 1 0
                 eq_refl eq_refl) by congruence.
      cbn zeta. unfold generate_next_pose.
      rewrite fdiv_nonzero by lra. reflexivity. }
    destruct (H 1%nat [] (mkTwist 0 0)) as (steps & _ & Hfree & Hleave).
    + rewrite Hrun. discriminate.
    + rewrite Hrun in Hleave. exists steps. split; assumption.
Defined.

(** C9, as stated, fails: a failure of the law also ends the loop, and it is
    neither a convergence nor a rejection. *)
Lemma rollout_ends_on_law_failure :
  let host := bench_host None at_rest failing_law free_grid free_cost in
  let e := fst (rollout host 1 (bench_planner false) tt (ahead 2) [] (mkTwist 0 0)) in
  e <> OutOfFuel /\ (forall p, e <> Reached p) /\ rejected e = false.
Proof. cbn. repeat split; congruence. Qed.

(** ** The candidate scan *)

Lemma initial_rotation_view (host : Host) (s s0 : Planner) (pose : Pose)
    (cmd cmd0 : Twist) :
  initial_rotation host s pose cmd = inr (s0, cmd0) ->
  robot_pose_ s0 = robot_pose_ s /\ max_lookahead_ s0 = max_lookahead_ s.
Proof.
  unfold initial_rotation.
  destruct (has_new_path_ s && ltb 0 (initial_rotate_tolerance_ s)).
  - destruct (rotateTowards host s pose) as [yaw c].
    destruct (ltb (Rabs yaw) (initial_rotate_tolerance_ s)); [|discriminate].
    intros H. injection H as <- _. split; reflexivity.
  - intros H. injection H as <- _. split; reflexivity.
Qed.

Lemma configure_velocity_view (host : Host) (s : Planner) :
  robot_pose_ (configure_velocity host s) = robot_pose_ s
  /\ max_lookahead_ (configure_velocity host s) = max_lookahead_ s.
Proof. unfold configure_velocity. destruct (odom_topic_ s); split; reflexivity. Qed.

Lemma within_lookahead_view (s s1 : Planner) (plan : list Pose) (i : nat) :
  robot_pose_ s1 = robot_pose_ s -> max_lookahead_ s1 = max_lookahead_ s ->
  within_lookahead s1 plan i <-> within_lookahead s plan i.
Proof. intros Hr Hm. unfold within_lookahead. now rewrite Hr, Hm. Qed.

(** The four ways through the body of the [for] loop at index [S i]. *)
Lemma scan_step (host : Host) (fuel : nat) (plan : list Pose)
    (odom_to_base base_to_odom : Transform host) (i : nat) (s : Planner)
    (cmd : Twist) :
  let c := scan host fuel plan odom_to_base base_to_odom (S i) s cmd in
  (plan !! S i = None /\ c = mkCycle Undefined cmd s [])
  \/ (~ within_lookahead s plan (S i) /\ is_Some (plan !! S i)
      /\ c = scan host fuel plan odom_to_base base_to_odom i s cmd)
  \/ (within_lookahead s plan (S i) /\ attempts c = [] /\ result c = Return true)
  \/ (within_lookahead s plan (S i) /\
      exists pose s1 cmd0 cmd1 e,
        plan !! S i = Some pose
        /\ robot_pose_ s1 = robot_pose_ s /\ max_lookahead_ s1 = max_lookahead_ s
        /\ rollout host fuel s1 base_to_odom (doTransform host odom_to_base pose)
                   [] cmd0 = (e, cmd1)
        /\ ((rejected e = true
             /\ c = logged (S i, e)
                      (scan host fuel plan odom_to_base base_to_odom i s1 cmd1))
            \/ (rejected e = false /\ c = mkCycle (exit_outcome e) cmd1 s1 [(S i, e)]))).
Proof.
  intros c. subst c. cbn [scan].
  destruct (plan !! S i) as [pose|] eqn:Hpose; [|left; auto].
  right.
  destruct (ltb _ _) eqn:Hfar.
  { left. apply ltb_true in Hfar. split; [|split; [eauto|reflexivity]].
    intros (pose' & Hpose' & Hle). rewrite Hpose in Hpose'.
    injection Hpose' as <-. lra. }
  right. apply ltb_false in Hfar.
  assert (Hin : within_lookahead s plan (S i)) by (exists pose; auto).
  destruct (initial_rotation host s (doTransform host odom_to_base pose) cmd)
    as [cmd0|[s0 cmd0]] eqn:Hgate.
  { left. auto. }
  right. split; [exact Hin|].
  destruct (initial_rotation_view _ _ _ _ _ _ Hgate) as [Hr0 Hm0].
  destruct (configure_velocity_view host s0) as [Hr1 Hm1].
  destruct (rollout host fuel (configure_velocity host s0) base_to_odom
              (doTransform host odom_to_base pose) [] cmd0) as [e cmd1] eqn:Hroll.
  exists pose, (configure_velocity host s0), cmd0, cmd1, e.
  split; [reflexivity|]. split; [congruence|]. split; [congruence|].
  split; [exact Hroll|].
  destruct e; cbn; auto.
Qed.


Lemma scan_stops (host : Host) (fuel : nat) (plan : list Pose)
    (odom_to_base base_to_odom : Transform host) (i : nat) :
  forall (s : Planner) (cmd : Twist) (j : nat) (e : sim_exit),
    let c := scan host fuel plan odom_to_base base_to_odom i s cmd in
    (j, e) ∈ attempts c -> rejected e = false ->
    result c = exit_outcome e /\ last (attempts c) = Some (j, e).
Proof.
  induction i as [|i IH]; intros s cmd j e c Hin Hrej.
  { subst c. cbn in Hin. now apply elem_of_nil in Hin. }
  destruct (scan_step host fuel plan odom_to_base base_to_odom i s cmd)
    as [[_ Hc]|[(_ & _ & Hc)|[(_ & Hc & _)|(_ & pose & s1 & cmd0 & cmd1 & e0
                                           & _ & _ & _ & _ & Hc)]]];
    fold c in Hc.
  - rewrite Hc in Hin. cbn in Hin. now apply elem_of_nil in Hin.
  - rewrite Hc in *. now apply IH.
  - rewrite Hc in Hin. now apply elem_of_nil in Hin.
  - destruct Hc as [[Hrej0 Hc]|[Hrej0 Hc]]; rewrite Hc in *;
      cbn [attempts logged result] in *.
    + apply elem_of_cons in Hin as [Hin|Hin].
      * injection Hin as -> ->. congruence.
      * destruct (IH s1 cmd1 j e Hin Hrej) as [Hres Hlast].
        split; [exact Hres|].
        destruct (attempts (scan host fuel plan odom_to_base base_to_odom i s1 cmd1));
          [discriminate|exact Hlast].
    + apply elem_of_cons in Hin as [Hin|Hin].
      * injection Hin as -> ->. split; reflexivity.
      * now apply elem_of_nil in Hin.
Qed.

Lemma scan_untouched (host : Host) (fuel : nat) (plan : list Pose)
    (odom_to_base base_to_odom : Transform host) (i : nat) :
  forall (s : Planner) (cmd : Twist),
    let c := scan host fuel plan odom_to_base base_to_odom i s cmd in
    result c = Return false -> attempts c = [] ->
    cmd_vel c = cmd /\ planner c = s.
Proof.
  induction i as [|i IH]; intros s cmd c Hres Hlog; [split; reflexivity|].
  destruct (scan_step host fuel plan odom_to_base base_to_odom i s cmd)
    as [[_ Hc]|[(_ & _ & Hc)|[(_ & _ & Hc)|(_ & pose & s1 & cmd0 & cmd1 & e0
                                           & _ & _ & _ & _ & Hc)]]];
    fold c in Hc.
  - rewrite Hc in Hres. discriminate.
  - rewrite Hc in *. now apply IH.
  - congruence.
  - destruct Hc as [[_ Hc]|[_ Hc]]; rewrite Hc in Hlog; discriminate.
Qed.

Lemma rollout_keeps_cmd (host : Host) (s : Planner)
    (base_to_odom : Transform host) (pose : Pose) (fuel : nat) :
  forall (path : list Pose) (cmd : Twist),
    path <> [] -> snd (rollout host fuel s base_to_odom pose path cmd) = cmd.
Proof.
  induction fuel as [|fuel IH]; intros path cmd Hne; [reflexivity|].
  cbn [rollout].
  destruct (relative_error host pose path) as [[ex ey] error_angle].
  destruct (approach host (controller_ s) ex ey error_angle) as [[vel_x vel_th]|];
    [|reflexivity].
  destruct path as [|p path]; [congruence|].
  destruct (ltb (hypot ex ey) (resolution_ s)); [reflexivity|].
  destruct (generate_next_pose _ _ _ _ _) as [next_pose|]; [|reflexivity].
  destruct (check_pose host base_to_odom next_pose); [reflexivity|].
  apply IH. destruct path; discriminate.
Qed.

Lemma rollout_rejected_cmd (host : Host) (fuel : nat) (s : Planner)
    (base_to_odom : Transform host) (pose : Pose) (cmd cmd1 : Twist)
    (e : sim_exit) :
  rollout host fuel s base_to_odom pose [] cmd = (e, cmd1) ->
  rejected e = true ->
  exists ex ey error_angle,
    relative_error host pose [] = (ex, ey, error_angle)
    /\ approach host (controller_ s) ex ey error_angle
       = Some (linear_x cmd1, angular_z cmd1).
Proof.
  intros Hroll Hrej. destruct fuel as [|fuel].
  { cbn in Hroll. injection Hroll as <- _. discriminate. }
  cbn [rollout] in Hroll.
  destruct (relative_error host pose []) as [[ex ey] error_angle].
  exists ex, ey, error_angle. split; [reflexivity|].
  destruct (approach host (controller_ s) ex ey error_angle)
    as [[vel_x vel_th]|] eqn:Happ.
  2:{ injection Hroll as <- _. discriminate. }
  destruct (generate_next_pose _ _ _ _ _) as [next_pose|].
  2:{ injection Hroll as <- _. discriminate. }
  destruct (check_pose host base_to_odom next_pose).
  - injection Hroll as _ <-. reflexivity.
  - pose proof (rollout_keeps_cmd host s base_to_odom pose fuel
                  ([] ++ [next_pose]) (mkTwist vel_x vel_th)) as Hkeep.
    rewrite Hroll in Hkeep. cbn in Hkeep. rewrite Hkeep by discriminate.
    reflexivity.
Qed.

Lemma scan_all_rejected (host : Host) (fuel : nat) (plan : list Pose)
    (odom_to_base base_to_odom : Transform host) (i : nat) :
  forall (s : Planner) (cmd : Twist),
    let c := scan host fuel plan odom_to_base base_to_odom i s cmd in
    (i < length plan)%nat ->
    (forall i0, (1 <= i0 <= i)%nat -> within_lookahead s plan i0 ->
       exists e, (i0, e) ∈ attempts c /\ rejected e = true) ->
    result c = Return false
    /\ (attempts c <> [] -> holds_first_command host plan odom_to_base c).
Proof.
  induction i as [|i IH]; intros s cmd c Hlen Hall.
  { subst c. cbn. split; [reflexivity|congruence]. }
  destruct (scan_step host fuel plan odom_to_base base_to_odom i s cmd)
    as [[Hnone _]|[(Hout & _ & Hc)|[(Hin & Hc & _)|(Hin & pose & s1 & cmd0 & cmd1
                                                  & e0 & Hpose & Hr & Hm & Hroll & Hc)]]];
    try fold c in Hc.
  - apply lookup_ge_None in Hnone. lia.
  - rewrite Hc in *. apply IH; [lia|].
    intros i0 Hi0 Hw. apply Hall; [lia|exact Hw].
  - destruct (Hall (S i)) as (e & He & _); [lia|exact Hin|].
    rewrite Hc in He. now apply elem_of_nil in He.
  - destruct Hc as [[Hrej Hc]|[Hrej Hc]].
    + set (c' := scan host fuel plan odom_to_base base_to_odom i s1 cmd1) in *.
      destruct (IH s1 cmd1) as [Hres Hcmd]; [lia| |].
      { intros i0 Hi0 Hw.
        destruct (Hall i0) as (e & He & Hrej'); [lia| |].
        - now apply (within_lookahead_view s s1 plan i0 Hr Hm).
        - rewrite Hc in He. cbn in He. apply elem_of_cons in He as [He|He].
          + injection He as -> ->. lia.
          + exists e. split; assumption. }
      fold c' in Hres, Hcmd. rewrite Hc. cbn [logged result].
      split; [exact Hres|]. intros _. unfold holds_first_command.
      cbn [logged cmd_vel planner attempts].
      destruct (attempts c') as [|a l] eqn:Hlog.
      * assert (Hsame : cmd_vel c' = cmd1 /\ planner c' = s1)
          by (apply scan_untouched; assumption).
        destruct Hsame as [-> ->].
        destruct (rollout_rejected_cmd host fuel s1 base_to_odom
                    (doTransform host odom_to_base pose) cmd0 cmd1 e0 Hroll Hrej)
          as (ex & ey & error_angle & Herr & Happ).
        exists (S i), e0, pose, ex, ey, error_angle. auto.
      * destruct Hcmd as (j & e & pose' & ex & ey & error_angle
                          & Hlast & Hrest); [discriminate|].
        exists j, e, pose', ex, ey, error_angle. split; [|exact Hrest].
        rewrite Hlog in Hlast. rewrite <- Hlast. reflexivity.
    + destruct (Hall (S i)) as (e & He & Hrej'); [lia|exact Hin|].
      rewrite Hc in He. cbn in He. apply elem_of_cons in He as [He|He].
      * injection He as ->. congruence.
      * now apply elem_of_nil in He.
Qed.

(** A cycle that has not run out of iterations is the same with more. *)
Lemma scan_more_fuel (host : Host) (plan : list Pose)
    (odom_to_base base_to_odom : Transform host) (fuel fuel' : nat) (i : nat) :
  (fuel <= fuel')%nat ->
  forall (s : Planner) (cmd : Twist),
    result (scan host fuel plan odom_to_base base_to_odom i s cmd) <> Diverges ->
    scan host fuel' plan odom_to_base base_to_odom i s cmd
    = scan host fuel plan odom_to_base base_to_odom i s cmd.
Proof.
  intros Hle. induction i as [|i IH]; intros s cmd Hres; [reflexivity|].
  cbn [scan] in *.
  destruct (plan !! S i) as [pose|]; [|reflexivity].
  destruct (ltb _ _); [now apply IH|].
  destruct (initial_rotation host s (doTransform host odom_to_base pose) cmd)
    as [cmd0|[s0 cmd0]]; [reflexivity|].
  destruct (rollout host fuel (configure_velocity host s0) base_to_odom
              (doTransform host odom_to_base pose) [] cmd0) as [e cmd1] eqn:Hroll.
  assert (Hend : e <> OutOfFuel) by (intros ->; now apply Hres).
  rewrite (rollout_more_fuel host (configure_velocity host s0) base_to_odom
             (doTransform host odom_to_base pose) fuel fuel' [] cmd0 Hle)
    by (now rewrite Hroll).
  rewrite Hroll.
  destruct e; try reflexivity; cbn in Hres; now rewrite IH.
Qed.

(** ** The whole cycle *)

Lemma cycle_cases (host : Host) (fuel : nat) (s : Planner) (cmd : Twist) :
  let c := computeVelocityCommands host fuel s cmd in
  (result c = Return false /\ cmd_vel c = cmd /\ attempts c = []
   /\ (initialized_ s = false
       \/ getRobotPose host = None
       \/ exists robot, getRobotPose host = Some robot
            /\ (getLocalPlan host robot = None
                \/ getLocalPlan host robot = Some []
                \/ lookupTransform host = None)))
  \/ (exists robot plan back odom_to_base,
        initialized_ s = true
        /\ getRobotPose host = Some robot
        /\ getLocalPlan host robot = Some plan
        /\ last plan = Some back
        /\ lookupTransform host = Some odom_to_base
        /\ ((hypot (x (position back) - x (position robot))
                   (y (position back) - y (position robot)) < xy_goal_tolerance_ s
             /\ result c = Return true /\ attempts c = [])
            \/ (xy_goal_tolerance_ s
                  <= hypot (x (position back) - x (position robot))
                           (y (position back) - y (position robot))
                /\ c = scan host fuel plan odom_to_base (inverse host odom_to_base)
                            (length plan - 1) (with_robot_pose robot s) cmd))).
Proof.
  intros c. subst c. unfold computeVelocityCommands.
  destruct (initialized_ s) eqn:Hinit; cbn [negb]; [|left; auto 6].
  destruct (getRobotPose host) as [robot|] eqn:Hrobot; [|left; auto 6].
  destruct (getLocalPlan host robot) as [plan|] eqn:Hplan; [|left; eauto 10].
  destruct (last plan) as [back|] eqn:Hback.
  2:{ apply last_None in Hback. subst plan. left. eauto 10. }
  destruct (lookupTransform host) as [odom_to_base|] eqn:Htf; [|left; eauto 10].
  right. exists robot, plan, back, odom_to_base.
  repeat (split; [reflexivity || assumption|]).
  cbn [xy_goal_tolerance_ with_robot_pose].
  destruct (ltb _ _) eqn:Hnear.
  - left. apply ltb_true in Hnear. auto.
  - right. apply ltb_false in Hnear. auto.
Qed.

Lemma cycle_more_fuel (host : Host) (fuel fuel' : nat) (s : Planner) (cmd : Twist) :
  (fuel <= fuel')%nat ->
  result (computeVelocityCommands host fuel s cmd) <> Diverges ->
  computeVelocityCommands host fuel' s cmd
  = computeVelocityCommands host fuel s cmd.
Proof.
  intros Hle. unfold computeVelocityCommands.
  destruct (negb (initialized_ s)); [reflexivity|].
  destruct (getRobotPose host) as [robot|]; [|reflexivity].
  destruct (getLocalPlan host robot) as [plan|]; [|reflexivity].
  destruct (last plan); [|reflexivity].
  destruct (lookupTransform host) as [odom_to_base|]; [|reflexivity].
  destruct (ltb _ _); [reflexivity|].
  now apply scan_more_fuel.
Qed.


(** C7. A failure of the law at any iteration of the simulation loop ends
    the loop with that failure, and a cycle in which a candidate ended that
    way returns false with that candidate as the last one tried. *)
Theorem law_failure_aborts_cycle (host : Host) (fuel : nat) (s : Planner)
    (cmd : Twist) :
  let c := computeVelocityCommands host fuel s cmd in
  (forall fuel1 s1 base_to_odom pose path cmd1 ex ey error_angle,
      relative_error host pose path = (ex, ey, error_angle) ->
      approach host (controller_ s1) ex ey error_angle = None ->
      rollout host (S fuel1) s1 base_to_odom pose path cmd1
      = (ApproachFailed, cmd1))
  /\ (forall j, (j, ApproachFailed) ∈ attempts c ->
        result c = Return false
        /\ last (attempts c) = Some (j, ApproachFailed)).
Proof.
  intros c. split.
  - intros fuel1 s1 base_to_odom pose path cmd1 ex ey error_angle Herr Happ.
    cbn [rollout]. now rewrite Herr, Happ.
  - intros j Hj.
    destruct (cycle_cases host fuel s cmd)
      as [(_ & _ & Hlog & _)
         |(robot & plan & back & tf & _ & _ & _ & _ & _
           & [(_ & _ & Hlog)|(_ & Hc)])];
      fold c in Hlog || fold c in Hc.
    1,2: rewrite Hlog in Hj; now apply elem_of_nil in Hj.
    rewrite Hc in *.
    now apply (scan_stops host fuel plan tf (inverse host tf) (length plan - 1)
                 (with_robot_pose robot s) cmd j ApproachFailed).
Qed.

(** C6. A cycle in which every candidate within [max_lookahead] was
    simulated and rejected returns false; if at least one candidate was
    simulated, [cmd_vel] then holds the first command of the law for the
    last candidate tried.  A cycle that returns false without having
    simulated any candidate leaves [cmd_vel] as it was. *)
Theorem rejected_cycle_fails (host : Host) (fuel : nat) (s : Planner)
    (cmd : Twist) :
  let c := computeVelocityCommands host fuel s cmd in
  (forall robot plan back odom_to_base,
      getRobotPose host = Some robot ->
      getLocalPlan host robot = Some plan ->
      last plan = Some back ->
      lookupTransform host = Some odom_to_base ->
      xy_goal_tolerance_ s
        <= hypot (x (position back) - x (position robot))
                 (y (position back) - y (position robot)) ->
      (forall i, (1 <= i < length plan)%nat ->
         within_lookahead (with_robot_pose robot s) plan i ->
         exists e, (i, e) ∈ attempts c /\ rejected e = true) ->
      result c = Return false
      /\ (attempts c <> [] -> holds_first_command host plan odom_to_base c))
  /\ (result c = Return false -> attempts c = [] -> cmd_vel c = cmd).
Proof.
  intros c.
  destruct (cycle_cases host fuel s cmd)
    as [(Hres & Hcmd & Hlog & _)
       |(robot' & plan' & back' & tf & _ & Hrobot' & Hplan' & Hback' & Htf'
         & [(Hnear & Hres & Hlog)|(_ & Hc)])];
    fold c in Hres, Hlog || fold c in Hc; try fold c in Hcmd.
  - split; [|auto]. intros. split; [exact Hres|congruence].
  - split; [|congruence].
    intros robot plan back tf0 Hrobot Hplan Hback _ Hfar _.
    rewrite Hrobot in Hrobot'. injection Hrobot' as <-.
    rewrite Hplan in Hplan'. injection Hplan' as <-.
    rewrite Hback in Hback'. injection Hback' as <-. lra.
  - split.
    + intros robot plan back tf0 Hrobot Hplan Hback Htf Hfar Hall.
      rewrite Hrobot in Hrobot'. injection Hrobot' as <-.
      rewrite Hplan in Hplan'. injection Hplan' as <-.
      rewrite Htf in Htf'. injection Htf' as <-.
      assert (Hne : (0 < length plan)%nat).
      { destruct plan; [discriminate|cbn; lia]. }
      rewrite Hc in *.
      apply scan_all_rejected; [lia|].
      intros i Hi Hw. apply Hall; [lia|exact Hw].
    + rewrite Hc. intros Hres Hlog.
      now apply scan_untouched.
Qed.

(** ** Cycles of the test bench *)

(** Two candidates ahead of the robot, every cell of the costmap lethal:
    both are simulated, farthest first, and both collide at their first
    step; [cmd_vel] is left holding the command of the law. *)
Lemma bench_collision_cycle :
  computeVelocityCommands
    (bench_host (Some [origin; ahead 1; ahead 2]) at_rest (constant_law 1 0)
                free_grid lethal_cost)
    5 (bench_planner false) (mkTwist 0 0)
  = mkCycle (Return false) (mkTwist 1 0)
            (with_robot_pose origin (bench_planner false))
            [(2%nat, Collision); (1%nat, Collision)].
Proof.
  unfold computeVelocityCommands. cbn -[ltb hypot scan].
  rewrite (hypot_eq (2 - 0) (0 - 0) 2) by lra. decide_ltb.
  cbn -[ltb hypot rollout].
  rewrite (hypot_eq (2 - 0) (0 - 0) 2) by lra. decide_ltb.
  cbn -[ltb hypot generate_next_pose].
  unfold generate_next_pose. rewrite fdiv_nonzero by lra.
  cbn -[ltb hypot generate_next_pose].
  rewrite (hypot_eq (1 - 0) (0 - 0) 1) by lra. decide_ltb.
  reflexivity.
Qed.

(** The law fails on the first candidate: nothing else is tried. *)
Lemma bench_law_failure_cycle :
  computeVelocityCommands
    (bench_host (Some [origin; ahead 1; ahead 2]) at_rest failing_law
                free_grid free_cost)
    5 (bench_planner false) (mkTwist 0 0)
  = mkCycle (Return false) (mkTwist 0 0)
            (with_robot_pose origin (bench_planner false))
            [(2%nat, ApproachFailed)].
Proof.
  unfold computeVelocityCommands. cbn -[ltb hypot scan].
  rewrite (hypot_eq (2 - 0) (0 - 0) 2) by lra. decide_ltb.
  cbn -[ltb hypot rollout].
  rewrite (hypot_eq (2 - 0) (0 - 0) 2) by lra. decide_ltb.
  reflexivity.
Qed.

(** With the wall in the costmap the farthest candidate collides at its
    second step and the next one is reached: the cycle succeeds with the
    command of the law. *)
Lemma bench_straight_step
    (law : VelocityLimits -> R -> R -> R -> option (R * R))
    (grid : R -> R -> option (N * N)) (cost : N -> N -> N) (a : R) :
  generate_next_pose
    (bench_host (Some [origin; ahead 1; ahead 2]) at_rest law grid cost)
    1 1 0 (ahead a)
  = Some (ahead (a + 1)).
Proof.
  unfold generate_next_pose. rewrite fdiv_nonzero by lra. cbn.
  rewrite planar_yaw_identity. unfold set_yaw, ahead. cbn.
  replace ((0 + 1 / 1 * 0) / 2) with 0 by lra.
  rewrite sin_0, cos_0. f_equal. f_equal. f_equal; lra.
Qed.

Lemma bench_fallback_cycle :
  computeVelocityCommands
    (bench_host (Some [origin; ahead 1; ahead 2]) at_rest (constant_law 1 0)
                wall_grid wall_cost)
    2 (bench_planner false) (mkTwist 0 0)
  = mkCycle (Return true) (mkTwist 1 0)
            (with_robot_pose origin (bench_planner false))
            [(2%nat, Collision); (1%nat, Reached [ahead (0 + 1)])].
Proof.
  unfold computeVelocityCommands. cbn -[ltb hypot scan].
  rewrite (hypot_eq (2 - 0) (0 - 0) 2) by lra. decide_ltb.
  cbn -[ltb hypot rollout].
  rewrite (hypot_eq (2 - 0) (0 - 0) 2) by lra. decide_ltb.
  cbn -[ltb hypot generate_next_pose wall_grid wall_cost].
  change {| position := {| x := 0; y := 0 |};
            orientation := {| qx := 0; qy := 0; qz := 0; qw := 1 |} |}
    with (ahead 0).
  rewrite !bench_straight_step.
  cbn -[ltb hypot generate_next_pose].
  rewrite planar_yaw_identity. replace (- 0) with 0 by lra.
  rewrite cos_0, sin_0. decide_ltb. cbn -[ltb hypot generate_next_pose].
  rewrite (hypot_eq _ _ 1) by lra. decide_ltb.
  cbn -[ltb hypot generate_next_pose].
  rewrite (hypot_eq (1 - 0) (0 - 0) 1) by lra. decide_ltb.
  rewrite (hypot_eq _ _ 0) by lra. decide_ltb.
  reflexivity.
Qed.


Lemma law_failure_aborts_cycle_witness :
  let host := bench_host (Some [origin; ahead 1; ahead 2]) at_rest failing_law
                         free_grid free_cost in
  let c := computeVelocityCommands host 5 (bench_planner false) (mkTwist 0 0) in
  result c = Return false /\ last (attempts c) = Some (2%nat, ApproachFailed).
Proof.
  intros host c.
  apply (law_failure_aborts_cycle host 5 (bench_planner false) (mkTwist 0 0)).
  fold c. subst c host. rewrite bench_law_failure_cycle.
  apply elem_of_cons. now left.
Defined.

Lemma rejected_cycle_fails_witness :
  let host := bench_host (Some [origin; ahead 1; ahead 2]) at_rest
                         (constant_law 1 0) free_grid lethal_cost in
  let c := computeVelocityCommands host 5 (bench_planner false) (mkTwist 0 0) in
  result c = Return false
  /\ (attempts c <> [] ->
      holds_first_command host [origin; ahead 1; ahead 2] tt c).
Proof.
  intros host c.
  destruct (rejected_cycle_fails host 5 (bench_planner false) (mkTwist 0 0))
    as [H _].
  apply (H origin [origin; ahead 1; ahead 2] (ahead 2) tt);
    try reflexivity.
  - cbn. rewrite (hypot_eq (2 - 0) (0 - 0) 2) by lra. lra.
  - intros i Hi _. fold c. subst c host. rewrite bench_collision_cycle.
    cbn [attempts].
    assert (Hcases : i = 1%nat \/ i = 2%nat) by (cbn in Hi; lia).
    destruct Hcases as [-> | ->]; exists Collision; split; try reflexivity.
    + apply elem_of_cons. right. apply elem_of_cons. now left.
    + apply elem_of_cons. now left.
Defined.

(** C6, as stated, fails: the cycle above returns false and has replaced
    the zero command it was given by the command of the law. *)
Lemma failed_cycle_overwrites_cmd_vel :
  let host := bench_host (Some [origin; ahead 1; ahead 2]) at_rest
                         (constant_law 1 0) free_grid lethal_cost in
  let c := computeVelocityCommands host 5 (bench_planner false) (mkTwist 0 0) in
  result c = Return false /\ cmd_vel c <> mkTwist 0 0.
Proof.
  intros host c. subst c host. rewrite bench_collision_cycle. cbn.
  split; [reflexivity|]. intros H. injection H as H. lra.
Qed.

(** * Further properties of the code *)

(** ** The simulated path *)

Lemma sin_cos_square (a : R) : sin a * sin a + cos a * cos a = 1.
Proof. pose proof (sin2_cos2 a) as H. unfold Rsqr in H. exact H. Qed.

Lemma hypot_scaled (r a : R) : hypot (r * cos a) (r * sin a) = Rabs r.
Proof.
  apply hypot_eq; [apply Rabs_pos|].
  pose proof (sin_cos_square a) as H.
  replace (Rabs r * Rabs r) with (r * r)
    by (unfold Rabs; destruct (Rcase_abs r); lra).
  nra.
Qed.

Lemma hypot_rotated (a b t : R) :
  hypot (a * cos t - b * sin t) (b * cos t + a * sin t) = hypot a b.
Proof.
  unfold hypot. f_equal. pose proof (sin_cos_square t) as H. nra.
Qed.

Lemma generate_next_pose_length (host : Host) (resolution vel_x vel_th : R)
    (start next_pose : Pose) :
  generate_next_pose host resolution vel_x vel_th start = Some next_pose ->
  hypot (x (position next_pose) - x (position start))
        (y (position next_pose) - y (position start)) = Rabs resolution.
Proof.
  unfold generate_next_pose, fdiv.
  destruct (Req_dec_T vel_x 0) as [Hz|Hnz]; [discriminate|]. cbn.
  intros H. injection H as <-. cbn.
  rewrite <- (hypot_scaled resolution (getYaw host (orientation start))).
  f_equal; field; exact Hnz.
Qed.

(** X5. An integration step moves the simulated pose by exactly
    [|resolution|], whatever the command of the law: the new position does
    not depend on [vel_th], nor on the size or the sign of [vel_x]. *)
Theorem integration_step_length (host : Host) (resolution vel_x vel_th : R)
    (start next_pose : Pose) :
  generate_next_pose host resolution vel_x vel_th start = Some next_pose ->
  hypot (x (position next_pose) - x (position start))
        (y (position next_pose) - y (position start)) = Rabs resolution
  /\ forall vel_x' vel_th', vel_x' <> 0 ->
       exists next_pose',
         generate_next_pose host resolution vel_x' vel_th' start = Some next_pose'
         /\ x (position next_pose') = x (position next_pose)
         /\ y (position next_pose') = y (position next_pose).
Proof.
  intros Hgen. split; [now apply generate_next_pose_length in Hgen|].
  revert Hgen. unfold generate_next_pose, fdiv.
  destruct (Req_dec_T vel_x 0) as [Hz|Hnz]; [discriminate|]. cbn.
  intros H. injection H as <-. cbn.
  - intros vel_x' vel_th' Hnz'.
    destruct (Req_dec_T vel_x' 0) as [Hz'|_]; [contradiction|]. cbn.
    eexists. split; [reflexivity|]. cbn. split; field; auto.
Qed.

Lemma integration_step_length_witness :
  hypot (0 + 1 - 0) (0 - 0) = Rabs 1.
Proof.
  exact (proj1 (integration_step_length
                  (bench_host (Some [origin; ahead 1; ahead 2]) at_rest
                              (constant_law 1 0) free_grid free_cost)
                  1 1 0 (ahead 0) (ahead (0 + 1))
                  (bench_straight_step (constant_law 1 0) free_grid free_cost 0))).
Defined.

Lemma check_pose_cases (host : Host) (base_to_odom : Transform host) (q : Pose) :
  match check_pose host base_to_odom q with
  | Some e => rejected e = true
  | None => free_pose host base_to_odom q
  end.
Proof.
  unfold check_pose, free_pose.
  destruct (worldToMap host _ _) as [[mx my]|]; [|reflexivity].
  destruct (N.leb_spec INSCRIBED_INFLATED_OBSTACLE (getCost host mx my));
    [reflexivity|eauto].
Qed.

Lemma start_pose_snoc (path : list Pose) (q : Pose) :
  start_pose (path ++ [q]) = q.
Proof. unfold start_pose. now rewrite last_snoc. Qed.

Lemma rollout_reached (host : Host) (s : Planner)
    (base_to_odom : Transform host) (pose : Pose) (fuel : nat) :
  forall (path p : list Pose) (cmd cmd' : Twist),
    rollout host fuel s base_to_odom pose path cmd = (Reached p, cmd') ->
    exists suffix,
      p = path ++ suffix
      /\ stepped host (resolution_ s) base_to_odom (start_pose path) suffix
      /\ p <> []
      /\ exists ex ey error_angle,
           relative_error host pose p = (ex, ey, error_angle)
           /\ hypot ex ey < resolution_ s.
Proof.
  induction fuel as [|fuel IH]; intros path p cmd cmd' Hroll;
    [discriminate|].
  cbn [rollout] in Hroll.
  destruct (relative_error host pose path) as [[ex ey] error_angle] eqn:Herr.
  destruct (approach host (controller_ s) ex ey error_angle)
    as [[vel_x vel_th]|]; [|discriminate].
  destruct (match path with [] => false | _ => ltb (hypot ex ey) (resolution_ s) end)
    eqn:Hconv.
  - injection Hroll as <- _.
    destruct path as [|q path]; [discriminate|].
    apply ltb_true in Hconv.
    exists []. rewrite app_nil_r. repeat split; [discriminate|].
    exists ex, ey, error_angle. auto.
  - destruct (generate_next_pose host (resolution_ s) vel_x vel_th (start_pose path))
      as [next_pose|] eqn:Hnext; [|discriminate].
    pose proof (check_pose_cases host base_to_odom next_pose) as Hcheck.
    destruct (check_pose host base_to_odom next_pose) as [e|].
    + injection Hroll as -> _. discriminate.
    + destruct (IH _ _ _ _ Hroll) as (suffix & -> & Hstep & Hne & Hend).
      rewrite start_pose_snoc in Hstep.
      exists (next_pose :: suffix). rewrite <- app_assoc in *.
      split; [reflexivity|]. split; [|split; [exact Hne|exact Hend]].
      cbn. split; [eauto|]. split; assumption.
Qed.

Lemma stepped_spec (host : Host) (resolution : R)
    (base_to_odom : Transform host) (l : list Pose) :
  forall prev,
    stepped host resolution base_to_odom prev l ->
    Forall (free_pose host base_to_odom) l
    /\ forall k a b,
         (prev :: l) !! k = Some a -> (prev :: l) !! S k = Some b ->
         hypot (x (position b) - x (position a))
               (y (position b) - y (position a)) = Rabs resolution.
Proof.
  induction l as [|q l IH]; intros prev Hstep.
  - split; [constructor|]. intros k a b _ Hb. destruct k; discriminate.
  - destruct Hstep as ((vel_x & vel_th & Hgen) & Hfree & Hrest).
    destruct (IH q Hrest) as [Hall Hdist].
    split; [constructor; assumption|].
    intros k a b Ha Hb. destruct k as [|k].
    + cbn in Ha, Hb. injection Ha as <-. injection Hb as <-.
      exact (generate_next_pose_length _ _ _ _ _ _ Hgen).
    + exact (Hdist k a b Ha Hb).
Qed.

Lemma rollout_reached_path (host : Host) (fuel : nat) (s : Planner)
    (base_to_odom : Transform host) (pose : Pose) (p : list Pose)
    (cmd cmd' : Twist) :
  rollout host fuel s base_to_odom pose [] cmd = (Reached p, cmd') ->
  p <> []
  /\ Forall (free_pose host base_to_odom) p
  /\ (forall k a b,
        (start_pose [] :: p) !! k = Some a -> (start_pose [] :: p) !! S k = Some b ->
        hypot (x (position b) - x (position a))
              (y (position b) - y (position a)) = Rabs (resolution_ s))
  /\ exists back, last p = Some back
       /\ hypot (x (position pose) - x (position back))
                (y (position pose) - y (position back)) < resolution_ s.
Proof.
  intros Hroll.
  destruct (rollout_reached host s base_to_odom pose fuel [] p cmd cmd' Hroll)
    as (suffix & -> & Hstep & Hne & ex & ey & error_angle & Herr & Hnear).
  cbn [app] in *.
  destruct (stepped_spec host (resolution_ s) base_to_odom suffix _ Hstep)
    as [Hfree Hdist].
  split; [exact Hne|]. split; [exact Hfree|]. split; [exact Hdist|].
  unfold relative_error in Herr.
  destruct (last suffix) as [back|] eqn:Hlast.
  - exists back. split; [reflexivity|].
    injection Herr as <- <- _. now rewrite hypot_rotated in Hnear.
  - apply last_None in Hlast. contradiction.
Qed.

(** X4. When the simulation loop of a candidate ends with success, the
    simulated path is not empty, each of its poses lies on the costmap in a
    cell below the inscribed cost, consecutive poses (the first one from the
    origin of the base frame) are [|resolution|] apart, and the last pose is
    closer than [resolution] to the candidate. *)
Theorem reached_path_is_safe (host : Host) (fuel : nat) (s : Planner)
    (base_to_odom : Transform host) (pose : Pose) (p : list Pose)
    (cmd cmd' : Twist) :
  rollout host fuel s base_to_odom pose [] cmd = (Reached p, cmd') ->
  p <> []
  /\ Forall (free_pose host base_to_odom) p
  /\ (forall k a b,
        (start_pose [] :: p) !! k = Some a -> (start_pose [] :: p) !! S k = Some b ->
        hypot (x (position b) - x (position a))
              (y (position b) - y (position a)) = Rabs (resolution_ s))
  /\ exists back, last p = Some back
       /\ hypot (x (position pose) - x (position back))
                (y (position pose) - y (position back)) < resolution_ s.
Proof. apply rollout_reached_path. Qed.

Lemma reached_path_is_safe_witness :
  let host := bench_host (Some [origin; ahead 1; ahead 2]) at_rest
                         (constant_law 1 0) wall_grid wall_cost in
  Forall (free_pose host tt) [ahead (0 + 1)].
Proof.
  intros host.
  assert (Hroll : rollout host 2 (bench_planner false) tt (ahead 1) []
                    (mkTwist 1 0)
                  = (Reached [ahead (0 + 1)], mkTwist 1 0)).
  { subst host. cbn -[ltb hypot generate_next_pose wall_grid wall_cost].
    change {| position := {| x := 0; y := 0 |};
              orientation := {| qx := 0; qy := 0; qz := 0; qw := 1 |} |}
      with (ahead 0).
    rewrite !bench_straight_step.
    cbn -[ltb hypot generate_next_pose].
    rewrite planar_yaw_identity. replace (- 0) with 0 by lra.
    rewrite cos_0, sin_0. decide_ltb. cbn -[ltb hypot generate_next_pose].
    rewrite (hypot_eq _ _ 0) by lra. decide_ltb. reflexivity. }
  exact (proj1 (proj2 (reached_path_is_safe host 2 (bench_planner false) tt
                         (ahead 1) [ahead (0 + 1)] (mkTwist 1 0) (mkTwist 1 0)
                         Hroll))).
Defined.

(** ** The speed of the rotation in place *)

Lemma Rmax_left_le (a b : R) : b <= a -> Rmax a b = a.
Proof. intros H. unfold Rmax. destruct (Rle_dec a b); lra. Qed.

Lemma Rmin_right_le (a b : R) : b <= a -> Rmin a b = b.
Proof. intros H. unfold Rmin. destruct (Rle_dec a b); lra. Qed.

Lemma rotate_max_vel_th_bounds (host : Host) (s : Planner) :
  min_in_place_vel_theta_ s <= max_vel_theta (limits_ s) ->
  min_in_place_vel_theta_ s <= rotate_max_vel_th host s <= max_vel_theta (limits_ s).
Proof.
  intros Hle. unfold rotate_max_vel_th.
  destruct (odom_topic_ s); [|lra].
  unfold Rmax, Rmin. repeat destruct (Rle_dec _ _); lra.
Qed.

Lemma Rabs_signed (v m : R) : 0 <= m -> Rabs (sign v * m) = m.
Proof.
  intros Hm. destruct (sign_cases v) as [[_ ->]|[_ ->]].
  - replace (-1 * m) with (- m) by lra. rewrite Rabs_Ropp. now apply Rabs_right, Rle_ge.
  - rewrite Rmult_1_l. now apply Rabs_right, Rle_ge.
Qed.

Lemma rotate_speed_lower (host : Host) (s : Planner) (pose : Pose) :
  0 <= min_in_place_vel_theta_ s ->
  min_in_place_vel_theta_ s <= max_vel_theta (limits_ s) ->
  min_in_place_vel_theta_ s <= Rabs (angular_z (snd (rotateTowards host s pose))).
Proof.
  intros Hmin Hle. unfold rotateTowards. cbn [snd angular_z].
  destruct (rotate_max_vel_th_bounds host s Hle) as [Hlo Hhi].
  set (speed := sqrt (2 * acc_lim_theta (limits_ s) * Rabs (rotate_yaw host pose))).
  assert (Hm : min_in_place_vel_theta_ s
               <= Rmin (rotate_max_vel_th host s)
                       (Rmax (min_in_place_vel_theta_ s) speed)).
  { unfold Rmax, Rmin. repeat destruct (Rle_dec _ _); lra. }
  rewrite Rabs_signed by lra. exact Hm.
Qed.

(** X6. With [0 <= min_in_place_vel_theta <= max_vel_theta], the speed
    that [rotateTowards] commands lies between [min_in_place_vel_theta] and
    [max_vel_theta]; with velocity feedback it exceeds neither the measured
    speed plus [acc_lim_theta * acc_dt] nor, if that is smaller,
    [min_in_place_vel_theta]. *)
Theorem rotateTowards_speed_bounds (host : Host) (s : Planner) (pose : Pose) :
  0 <= min_in_place_vel_theta_ s ->
  min_in_place_vel_theta_ s <= max_vel_theta (limits_ s) ->
  let w := angular_z (snd (rotateTowards host s pose)) in
  min_in_place_vel_theta_ s <= Rabs w <= max_vel_theta (limits_ s)
  /\ (odom_topic_ s = true ->
      Rabs w <= Rmax (Rabs (getYaw host (orientation (getRobotVel host)))
                      + acc_lim_theta (limits_ s) * acc_dt_ s)
                     (min_in_place_vel_theta_ s)).
Proof.
  intros Hmin Hle w. subst w. unfold rotateTowards. cbn [snd angular_z].
  destruct (rotate_max_vel_th_bounds host s Hle) as [Hlo Hhi].
  set (speed := sqrt (2 * acc_lim_theta (limits_ s) * Rabs (rotate_yaw host pose))).
  assert (Hm : min_in_place_vel_theta_ s
               <= Rmin (rotate_max_vel_th host s)
                       (Rmax (min_in_place_vel_theta_ s) speed)
               <= rotate_max_vel_th host s).
  { unfold Rmax, Rmin. repeat destruct (Rle_dec _ _); lra. }
  rewrite Rabs_signed by lra. split; [lra|].
  intros Hodom. eapply Rle_trans; [apply Hm|].
  unfold rotate_max_vel_th. rewrite Hodom.
  unfold Rmax, Rmin. repeat destruct (Rle_dec _ _); lra.
Qed.

Lemma rotateTowards_speed_bounds_witness :
  let host := bench_host None at_rest failing_law free_grid free_cost in
  0.3 <= Rabs (angular_z (snd (rotateTowards host (bench_planner true) (aside 1))))
      <= 1.
Proof.
  intros host.
  apply (rotateTowards_speed_bounds host (bench_planner true) (aside 1));
    cbn; lra.
Defined.

(** X7. [rotateTowards] never commands a zero rotation when
    [min_in_place_vel_theta] and [max_vel_theta] are positive; for a zero
    error it commands the positive rotation [min_in_place_vel_theta]. *)
Theorem rotateTowards_never_stops (host : Host) (s : Planner) (pose : Pose) :
  0 < min_in_place_vel_theta_ s ->
  min_in_place_vel_theta_ s <= max_vel_theta (limits_ s) ->
  angular_z (snd (rotateTowards host s pose)) <> 0
  /\ (fst (rotateTowards host s pose) = 0 ->
      angular_z (snd (rotateTowards host s pose)) = min_in_place_vel_theta_ s).
Proof.
  intros Hmin Hle. split.
  - intros Hzero.
    pose proof (rotate_speed_lower host s pose) as Hlo.
    rewrite Hzero, Rabs_R0 in Hlo. lra.
  - unfold rotateTowards. cbn [fst snd angular_z]. intros ->.
    destruct (rotate_max_vel_th_bounds host s Hle) as [Hlo _].
    rewrite Rabs_R0, Rmult_0_r, sqrt_0.
    rewrite (Rmax_left_le (min_in_place_vel_theta_ s) 0) by lra.
    rewrite Rmin_right_le by exact Hlo.
    unfold sign. case_ltb; lra.
Qed.

Lemma rotateTowards_never_stops_witness :
  let host := bench_host None at_rest failing_law free_grid free_cost in
  angular_z (snd (rotateTowards host (bench_planner false) origin)) = 0.3.
Proof.
  intros host.
  apply (rotateTowards_never_stops host (bench_planner false) origin).
  - cbn. lra.
  - cbn. lra.
  - cbn -[hypot ltb]. unfold rotate_yaw. cbn -[hypot ltb].
    rewrite (hypot_eq 0 0 0) by lra. decide_ltb. apply planar_yaw_identity.
Defined.

(** ** The velocity topic and the reconfiguration *)

(** X1. [velocityCallback] keeps the cached maximum within
    [min_vel_x, max_vel_x] of the current limits, takes the received value
    as it is when it lies there, and touches neither the limits nor the
    bounds of the law; with velocity feedback the maximum then pushed into
    the law lies within the same limits. *)
Theorem velocityCallback_within_limits (host : Host) (s : Planner) (data : R) :
  min_vel_x (limits_ s) <= max_vel_x (limits_ s) ->
  let s' := velocityCallback s data in
  min_vel_x (limits_ s) <= max_vel_x_ s' <= max_vel_x (limits_ s)
  /\ (min_vel_x (limits_ s) <= data <= max_vel_x (limits_ s) ->
      max_vel_x_ s' = data)
  /\ limits_ s' = limits_ s
  /\ controller_ s' = controller_ s
  /\ (odom_topic_ s = true ->
      min_vel_x (limits_ s)
      <= law_max_vel_x (controller_ (configure_velocity host s'))
      <= max_vel_x (limits_ s)).
Proof.
  intros Hle s'. subst s'. unfold velocityCallback. cbn.
  assert (Hin : min_vel_x (limits_ s)
                <= Rmax (Rmin data (max_vel_x (limits_ s))) (min_vel_x (limits_ s))
                <= max_vel_x (limits_ s)).
  { unfold Rmax, Rmin. repeat destruct (Rle_dec _ _); lra. }
  split; [exact Hin|]. split; [|split; [reflexivity|split; [reflexivity|]]].
  - intros Hdata. unfold Rmax, Rmin. repeat destruct (Rle_dec _ _); lra.
  - intros Hodom. unfold configure_velocity. cbn. rewrite Hodom. cbn.
    unfold capped_max_vel_x. cbn.
    unfold Rmax, Rmin in *. repeat destruct (Rle_dec _ _); lra.
Qed.

Lemma velocityCallback_within_limits_witness :
  max_vel_x_ (velocityCallback (bench_planner false) 0.3) = 0.3
  /\ max_vel_x_ (velocityCallback (bench_planner false) 7) <= 0.5.
Proof.
  split.
  - apply (velocityCallback_within_limits
             (bench_host None at_rest failing_law free_grid free_cost)
             (bench_planner false) 0.3); cbn; lra.
  - apply (velocityCallback_within_limits
             (bench_host None at_rest failing_law free_grid free_cost)
             (bench_planner false) 7); cbn; lra.
Defined.

(** X3. A reconfiguration discards what the velocity topic has set: the
    cached maximum and the maximum of the law are the configured
    [max_vel_x] again; it leaves [initialized_], [has_new_path_], the plan
    and the robot pose alone, and a velocity message received afterwards is
    clamped to the new limits. *)
Theorem reconfigure_overrides_velocity_topic (costmap_resolution : R)
    (c : config.t) (s : Planner) (data : R) :
  let s' := reconfigureCallback costmap_resolution c s in
  reconfigureCallback costmap_resolution c (velocityCallback s data) = s'
  /\ max_vel_x_ s' = config.max_vel_x c
  /\ law_max_vel_x (controller_ s') = config.max_vel_x c
  /\ initialized_ s' = initialized_ s
  /\ has_new_path_ s' = has_new_path_ s
  /\ global_plan_ s' = global_plan_ s
  /\ robot_pose_ s' = robot_pose_ s
  /\ (config.min_vel_x c <= config.max_vel_x c ->
      forall data',
        config.min_vel_x c <= max_vel_x_ (velocityCallback s' data')
                           <= config.max_vel_x c).
Proof.
  intros s'. subst s'. repeat (split; [reflexivity|]).
  intros Hle data'. unfold velocityCallback. cbn.
  unfold Rmax, Rmin. repeat destruct (Rle_dec _ _); lra.
Qed.

Lemma reconfigure_overrides_velocity_topic_witness :
  let c := config.mk 0.8 0.1 0.2 1 1 0.1 0.1 0.3 2 0 in
  max_vel_x_ (reconfigureCallback 1 c (velocityCallback (bench_planner false) 0.2))
  = 0.8
  /\ max_vel_x_ (velocityCallback (reconfigureCallback 1 c (bench_planner false)) 5)
     <= 0.8.
Proof.
  intros c.
  destruct (reconfigure_overrides_velocity_topic 1 c (bench_planner false) 0.2)
    as (Hsame & Hmax & _ & _ & _ & _ & _ & Hclamp).
  split.
  - rewrite Hsame. exact Hmax.
  - apply Hclamp. cbn. lra.
Defined.

Lemma rollout_with_max_vel_x (host : Host) (v : R) (s : Planner)
    (base_to_odom : Transform host) (pose : Pose) (fuel : nat) :
  forall (path : list Pose) (cmd : Twist),
    rollout host fuel (with_max_vel_x v s) base_to_odom pose path cmd
    = rollout host fuel s base_to_odom pose path cmd.
Proof.
  induction fuel as [|fuel IH]; intros path cmd; [reflexivity|].
  cbn [rollout].
  change (controller_ (with_max_vel_x v s)) with (controller_ s).
  change (resolution_ (with_max_vel_x v s)) with (resolution_ s).
  destruct (relative_error host pose path) as [[ex ey] error_angle].
  destruct (approach host (controller_ s) ex ey error_angle) as [[vel_x vel_th]|];
    [|reflexivity].
  destruct (match path with [] => false | _ => ltb (hypot ex ey) (resolution_ s) end);
    [reflexivity|].
  destruct (generate_next_pose _ _ _ _ _) as [next_pose|]; [|reflexivity].
  destruct (check_pose host base_to_odom next_pose); [reflexivity|].
  apply IH.
Qed.

Lemma initial_rotation_with_max_vel_x (host : Host) (v : R) (s : Planner)
    (pose : Pose) (cmd : Twist) :
  initial_rotation host (with_max_vel_x v s) pose cmd
  = match initial_rotation host s pose cmd with
    | inl c => inl c
    | inr (s0, c0) => inr (with_max_vel_x v s0, c0)
    end.
Proof.
  unfold initial_rotation.
  change (has_new_path_ (with_max_vel_x v s)) with (has_new_path_ s).
  change (initial_rotate_tolerance_ (with_max_vel_x v s))
    with (initial_rotate_tolerance_ s).
  change (rotateTowards host (with_max_vel_x v s) pose)
    with (rotateTowards host s pose).
  destruct (has_new_path_ s && ltb 0 (initial_rotate_tolerance_ s)); [|reflexivity].
  destruct (rotateTowards host s pose) as [yaw c].
  destruct (ltb (Rabs yaw) (initial_rotate_tolerance_ s)); reflexivity.
Qed.

Lemma initial_rotation_odom (host : Host) (s s0 : Planner) (pose : Pose)
    (cmd cmd0 : Twist) :
  initial_rotation host s pose cmd = inr (s0, cmd0) ->
  odom_topic_ s0 = odom_topic_ s.
Proof.
  unfold initial_rotation.
  destruct (has_new_path_ s && ltb 0 (initial_rotate_tolerance_ s)).
  - destruct (rotateTowards host s pose) as [yaw c].
    destruct (ltb (Rabs yaw) (initial_rotate_tolerance_ s)); [|discriminate].
    intros H. now injection H as <- _.
  - intros H. now injection H as <- _.
Qed.

Lemma scan_with_max_vel_x (host : Host) (v : R) (fuel : nat) (plan : list Pose)
    (odom_to_base base_to_odom : Transform host) (i : nat) :
  forall (s : Planner) (cmd : Twist),
    odom_topic_ s = false ->
    scan host fuel plan odom_to_base base_to_odom i (with_max_vel_x v s) cmd
    = cycle_with_max_vel_x v
        (scan host fuel plan odom_to_base base_to_odom i s cmd).
Proof.
  induction i as [|i IH]; intros s cmd Hodom; [reflexivity|].
  cbn [scan].
  change (robot_pose_ (with_max_vel_x v s)) with (robot_pose_ s).
  change (max_lookahead_ (with_max_vel_x v s)) with (max_lookahead_ s).
  destruct (plan !! S i) as [pose|]; [|reflexivity].
  destruct (ltb _ _); [now apply IH|].
  rewrite initial_rotation_with_max_vel_x.
  destruct (initial_rotation host s (doTransform host odom_to_base pose) cmd)
    as [cmd0|[s0 cmd0]] eqn:Hgate; [reflexivity|].
  assert (Hodom0 : odom_topic_ s0 = false)
    by (rewrite (initial_rotation_odom _ _ _ _ _ _ Hgate); exact Hodom).
  unfold configure_velocity.
  change (odom_topic_ (with_max_vel_x v s0)) with (odom_topic_ s0).
  rewrite Hodom0. rewrite rollout_with_max_vel_x.
  destruct (rollout host fuel s0 base_to_odom
              (doTransform host odom_to_base pose) [] cmd0) as [e cmd1].
  destruct e; try reflexivity; now rewrite IH.
Qed.

(** X2. Without velocity feedback the velocity topic has no effect on the
    cycle: after [velocityCallback] the cycle ends the same way, with the
    same command, the same candidates tried and the same bounds in the
    law. *)
Theorem velocity_topic_ignored_without_odometry (host : Host) (fuel : nat)
    (s : Planner) (cmd : Twist) (data : R) :
  odom_topic_ s = false ->
  let c := computeVelocityCommands host fuel s cmd in
  let c' := computeVelocityCommands host fuel (velocityCallback s data) cmd in
  result c' = result c
  /\ cmd_vel c' = cmd_vel c
  /\ attempts c' = attempts c
  /\ controller_ (planner c') = controller_ (planner c).
Proof.
  intros Hodom c c'.
  assert (H : c' = cycle_with_max_vel_x (max_vel_x_ (velocityCallback s data)) c).
  { subst c c'. unfold velocityCallback, computeVelocityCommands.
    cbn [max_vel_x_ with_max_vel_x].
    set (v := Rmax _ _).
    change (initialized_ (with_max_vel_x v s)) with (initialized_ s).
    destruct (negb (initialized_ s)); [reflexivity|].
    destruct (getRobotPose host) as [robot|]; [|reflexivity].
    destruct (getLocalPlan host robot) as [plan|]; [|reflexivity].
    destruct (last plan); [|reflexivity].
    destruct (lookupTransform host) as [odom_to_base|]; [|reflexivity].
    change (xy_goal_tolerance_ (with_robot_pose robot (with_max_vel_x v s)))
      with (xy_goal_tolerance_ (with_robot_pose robot s)).
    destruct (ltb _ _); [reflexivity|].
    change (with_robot_pose robot (with_max_vel_x v s))
      with (with_max_vel_x v (with_robot_pose robot s)).
    now apply scan_with_max_vel_x. }
  rewrite H. repeat split; reflexivity.
Qed.

Lemma velocity_topic_ignored_without_odometry_witness :
  let host := bench_host (Some [origin; ahead 1; ahead 2]) at_rest
                         (constant_law 1 0) wall_grid wall_cost in
  result (computeVelocityCommands host 2 (velocityCallback (bench_planner false) 0.2)
                                  (mkTwist 0 0))
  = Return true.
Proof.
  intros host.
  destruct (velocity_topic_ignored_without_odometry host 2 (bench_planner false)
              (mkTwist 0 0) 0.2 eq_refl) as (Hres & _).
  rewrite Hres. subst host. now rewrite bench_fallback_cycle.
Defined.

(** ** A controller that is not initialized *)

(** X11. Before [initialize], every operation refuses and changes nothing:
    the cycle returns false with [cmd_vel] and the members as they were,
    [isGoalReached] answers false, and [setPlan] returns false for any plan,
    the empty one included. *)
Theorem uninitialized_refuses (host : Host) (fuel : nat) (s : Planner)
    (cmd : Twist) (plan : list Pose) :
  initialized_ s = false ->
  computeVelocityCommands host fuel s cmd = mkCycle (Return false) cmd s []
  /\ isGoalReached host s = (false, s)
  /\ setPlan host s plan = Some (false, s).
Proof.
  intros Hinit.
  unfold computeVelocityCommands, isGoalReached, setPlan.
  rewrite Hinit. repeat split.
Qed.

Lemma uninitialized_refuses_witness :
  let s := with_global_plan [] (reconfigureCallback 1
             (config.mk 0.8 0.1 0.2 1 1 0.1 0.1 0.3 2 0)
             (mkPlanner false (mkVelocityLimits 0 0 0) bench_limits false []
                        0 0 0 0 0 0 0 0 false default_pose)) in
  setPlan (bench_host None at_rest failing_law free_grid free_cost) s []
  = Some (false, s).
Proof.
  intros s.
  apply (uninitialized_refuses
           (bench_host None at_rest failing_law free_grid free_cost)
           0 s (mkTwist 0 0) []).
  reflexivity.
Defined.

(** ** What a cycle changes in the controller *)

Lemma same_settings_refl (s : Planner) : same_settings s s.
Proof. unfold same_settings. repeat split. Qed.

Lemma same_settings_trans (s1 s2 s3 : Planner) :
  same_settings s1 s2 -> same_settings s2 s3 -> same_settings s1 s3.
Proof.
  unfold same_settings.
  intros (A1 & A2 & A3 & A4 & A5 & A6 & A7 & A8 & A9 & A10 & A11 & A12)
         (B1 & B2 & B3 & B4 & B5 & B6 & B7 & B8 & B9 & B10 & B11 & B12).
  repeat split; congruence.
Qed.

Lemma initial_rotation_cases (host : Host) (s : Planner) (pose : Pose)
    (cmd : Twist) :
  (has_new_path_ s = true /\ 0 < initial_rotate_tolerance_ s
   /\ initial_rotate_tolerance_ s <= Rabs (rotate_yaw host pose)
   /\ initial_rotation host s pose cmd = inl (snd (rotateTowards host s pose)))
  \/ (has_new_path_ s = true /\ 0 < initial_rotate_tolerance_ s
      /\ Rabs (rotate_yaw host pose) < initial_rotate_tolerance_ s
      /\ initial_rotation host s pose cmd
         = inr (with_has_new_path false s, snd (rotateTowards host s pose)))
  \/ ((has_new_path_ s = false \/ initial_rotate_tolerance_ s <= 0)
      /\ initial_rotation host s pose cmd = inr (s, cmd)).
Proof.
  unfold initial_rotation.
  destruct (has_new_path_ s) eqn:Hnew; cbn [andb]; [|right; right; auto].
  destruct (ltb 0 (initial_rotate_tolerance_ s)) eqn:Htol.
  2:{ apply ltb_false in Htol. right; right; auto. }
  apply ltb_true in Htol.
  change (rotateTowards host s pose)
    with (rotate_yaw host pose, snd (rotateTowards host s pose)).
  cbn iota.
  destruct (ltb (Rabs (rotate_yaw host pose)) (initial_rotate_tolerance_ s))
    eqn:Hyaw.
  - apply ltb_true in Hyaw. right; left; auto.
  - apply ltb_false in Hyaw. left; auto.
Qed.

(** The members after the gate has let a candidate through and the bounds
    of the law are set. *)
Lemma gate_then_configure (host : Host) (s s0 : Planner) (pose : Pose)
    (cmd cmd0 : Twist) :
  initial_rotation host s pose cmd = inr (s0, cmd0) ->
  let s1 := configure_velocity host s0 in
  same_settings s s1
  /\ robot_pose_ s1 = robot_pose_ s
  /\ (has_new_path_ s1 = true -> has_new_path_ s = true)
  /\ (has_new_path_ s1 = false \/ initial_rotate_tolerance_ s1 <= 0)
  /\ controller_ s1 = controller_ (configure_velocity host s)
  /\ controller_ (configure_velocity host s1) = controller_ s1.
Proof.
  intros Hgate s1. subst s1.
  destruct (initial_rotation_cases host s pose cmd)
    as [(_ & _ & _ & H)|[(Hnew & _ & _ & H)|([Hoff|Hoff] & H)]];
    rewrite H in Hgate; try discriminate; injection Hgate as <- _;
    unfold configure_velocity, same_settings; cbn;
    destruct (odom_topic_ s) eqn:Hodom; cbn; rewrite ?Hodom; cbn;
    repeat split; auto.
Qed.

Lemma scan_frame (host : Host) (fuel : nat) (plan : list Pose)
    (odom_to_base base_to_odom : Transform host) (i : nat) :
  forall (s : Planner) (cmd : Twist),
    let c := scan host fuel plan odom_to_base base_to_odom i s cmd in
    same_settings s (planner c)
    /\ robot_pose_ (planner c) = robot_pose_ s
    /\ (has_new_path_ (planner c) = true -> has_new_path_ s = true)
    /\ (attempts c = [] -> controller_ (planner c) = controller_ s)
    /\ (attempts c <> [] ->
        controller_ (planner c) = controller_ (configure_velocity host s)).
Proof.
  induction i as [|i IH]; intros s cmd c.
  { subst c. cbn. split; [apply same_settings_refl|]. repeat split; congruence. }
  subst c. cbn [scan].
  destruct (plan !! S i) as [pose|].
  2:{ cbn. split; [apply same_settings_refl|]. repeat split; congruence. }
  destruct (ltb _ _); [apply IH|].
  destruct (initial_rotation host s (doTransform host odom_to_base pose) cmd)
    as [cmd0|[s0 cmd0]] eqn:Hgate.
  { cbn. split; [apply same_settings_refl|]. repeat split; congruence. }
  destruct (gate_then_configure host s s0 _ _ _ Hgate)
    as (Hsame & Hpose & Hnew & _ & Hctl & Hidem).
  set (s1 := configure_velocity host s0) in *.
  destruct (rollout host fuel s1 base_to_odom
              (doTransform host odom_to_base pose) [] cmd0) as [e cmd1].
  assert (Hterm : forall r,
             same_settings s s1
             /\ robot_pose_ s1 = robot_pose_ s
             /\ (has_new_path_ s1 = true -> has_new_path_ s = true)
             /\ (attempts (mkCycle r cmd1 s1 [(S i, e)]) = [] ->
                 controller_ s1 = controller_ s)
             /\ (attempts (mkCycle r cmd1 s1 [(S i, e)]) <> [] ->
                 controller_ s1 = controller_ (configure_velocity host s))).
  { intros r. split; [exact Hsame|]. split; [exact Hpose|]. split; [exact Hnew|].
    split; [cbn; discriminate|intros _; exact Hctl]. }
  assert (Hrej : let c' := scan host fuel plan odom_to_base base_to_odom i s1 cmd1 in
                 let c := logged (S i, e) c' in
                 same_settings s (planner c)
                 /\ robot_pose_ (planner c) = robot_pose_ s
                 /\ (has_new_path_ (planner c) = true -> has_new_path_ s = true)
                 /\ (attempts c = [] -> controller_ (planner c) = controller_ s)
                 /\ (attempts c <> [] ->
                     controller_ (planner c)
                     = controller_ (configure_velocity host s))).
  { intros c' c0. subst c0. cbn [logged planner attempts].
    destruct (IH s1 cmd1) as (Hs & Hp & Hn & He & Hne). fold c' in Hs, Hp, Hn, He, Hne.
    split; [eapply same_settings_trans; eassumption|].
    split; [congruence|]. split; [auto|]. split; [discriminate|].
    intros _. destruct (attempts c') as [|a l].
    - rewrite He by reflexivity. exact Hctl.
    - rewrite Hne by discriminate. congruence. }
  destruct e; first [apply Hterm | apply Hrej].
Qed.

Lemma cycle_scans (host : Host) (fuel : nat) (s : Planner) (cmd : Twist)
    (robot back : Pose) (plan : list Pose) (odom_to_base : Transform host) :
  initialized_ s = true ->
  getRobotPose host = Some robot ->
  getLocalPlan host robot = Some plan ->
  last plan = Some back ->
  lookupTransform host = Some odom_to_base ->
  xy_goal_tolerance_ s
    <= hypot (x (position back) - x (position robot))
             (y (position back) - y (position robot)) ->
  computeVelocityCommands host fuel s cmd
  = scan host fuel plan odom_to_base (inverse host odom_to_base)
         (length plan - 1) (with_robot_pose robot s) cmd.
Proof.
  intros Hinit Hrobot Hplan Hback Htf Hfar.
  unfold computeVelocityCommands.
  rewrite Hinit, Hrobot, Hplan, Hback, Htf. cbn [negb].
  apply ltb_false in Hfar. cbn [xy_goal_tolerance_ with_robot_pose].
  now rewrite Hfar.
Qed.

(** X10. A cycle writes none of the parameters the class keeps for
    itself ([initialized_], the cached maximum, the tolerances, the
    lookahead, the resolution, [acc_dt_]); it can clear [has_new_path_] but
    never sets it; without velocity feedback it leaves the bounds of the law
    as they are; and when the costmap gives the robot pose, [robot_pose_]
    holds that pose afterwards. *)
Theorem cycle_keeps_settings (host : Host) (fuel : nat) (s : Planner)
    (cmd : Twist) :
  let c := computeVelocityCommands host fuel s cmd in
  (initialized_ (planner c) = initialized_ s
   /\ max_vel_x_ (planner c) = max_vel_x_ s
   /\ min_in_place_vel_theta_ (planner c) = min_in_place_vel_theta_ s
   /\ xy_goal_tolerance_ (planner c) = xy_goal_tolerance_ s
   /\ yaw_goal_tolerance_ (planner c) = yaw_goal_tolerance_ s
   /\ max_lookahead_ (planner c) = max_lookahead_ s
   /\ resolution_ (planner c) = resolution_ s
   /\ acc_dt_ (planner c) = acc_dt_ s
   /\ initial_rotate_tolerance_ (planner c) = initial_rotate_tolerance_ s)
  /\ (has_new_path_ (planner c) = true -> has_new_path_ s = true)
  /\ (odom_topic_ s = false -> controller_ (planner c) = controller_ s)
  /\ (forall robot,
        initialized_ s = true -> getRobotPose host = Some robot ->
        robot_pose_ (planner c) = robot).
Proof.
  intros c.
  assert (Hframe : same_settings s (planner c)
                   /\ (has_new_path_ (planner c) = true -> has_new_path_ s = true)
                   /\ (odom_topic_ s = false -> controller_ (planner c) = controller_ s)
                   /\ (forall robot,
                         initialized_ s = true -> getRobotPose host = Some robot ->
                         robot_pose_ (planner c) = robot)).
  { subst c. unfold computeVelocityCommands.
    destruct (initialized_ s) eqn:Hinit; cbn [negb].
    2:{ cbn. split; [apply same_settings_refl|]. repeat split; auto; discriminate. }
    destruct (getRobotPose host) as [robot|].
    2:{ cbn. split; [apply same_settings_refl|]. repeat split; auto; discriminate. }
    assert (Hfail : forall c0 : cycle,
               planner c0 = with_robot_pose robot s ->
               same_settings s (planner c0)
               /\ (has_new_path_ (planner c0) = true -> has_new_path_ s = true)
               /\ (odom_topic_ s = false -> controller_ (planner c0) = controller_ s)
               /\ (forall robot0,
                     true = true -> Some robot = Some robot0 ->
                     robot_pose_ (planner c0) = robot0)).
    { intros c0 ->. unfold same_settings. cbn. repeat split; auto; congruence. }
    destruct (getLocalPlan host robot) as [plan|]; [|now apply Hfail].
    destruct (last plan); [|now apply Hfail].
    destruct (lookupTransform host) as [tf|]; [|now apply Hfail].
    destruct (ltb _ _); [now apply Hfail|].
    destruct (scan_frame host fuel plan tf (inverse host tf) (length plan - 1)
                (with_robot_pose robot s) cmd) as (Hs & Hp & Hn & He & Hne).
    cbn zeta in *.
    set (c' := scan host fuel plan tf (inverse host tf) (length plan - 1)
                    (with_robot_pose robot s) cmd) in *.
    split; [exact Hs|]. split; [exact Hn|]. split.
    - intros Hodom. destruct (attempts c') as [|a l].
      + now rewrite He.
      + rewrite Hne by discriminate. unfold configure_velocity. cbn.
        now rewrite Hodom.
    - intros robot0 _ Heq. rewrite Hp. cbn. congruence. }
  destruct Hframe
    as ((H1 & _ & _ & _ & H5 & H6 & H7 & H8 & H9 & H10 & H11 & H12) & Hrest).
  split; [|exact Hrest]. repeat split; assumption.
Qed.

Lemma cycle_keeps_settings_witness :
  let host := bench_host (Some [origin; ahead 1; ahead 2]) at_rest
                         (constant_law 1 0) wall_grid wall_cost in
  let c := computeVelocityCommands host 2 (bench_planner false) (mkTwist 0 0) in
  max_lookahead_ (planner c) = 2
  /\ controller_ (planner c) = mkVelocityLimits 0.1 0.5 1
  /\ robot_pose_ (planner c) = origin.
Proof.
  intros host c.
  destruct (cycle_keeps_settings host 2 (bench_planner false) (mkTwist 0 0))
    as ((_ & _ & _ & _ & _ & Hlook & _) & _ & Hctl & Hpose).
  split; [exact Hlook|]. split; [now apply Hctl|].
  apply Hpose; reflexivity.
Defined.

(** X15. With velocity feedback, any cycle that has simulated a candidate
    leaves in the law the bounds [min_vel_x], the capped maximum of lines
    277-279 and [max_vel_theta]; the minimum never exceeds the maximum,
    whatever the configuration. *)
Theorem cycle_pushes_capped_bounds (host : Host) (fuel : nat) (s : Planner)
    (cmd : Twist) :
  odom_topic_ s = true ->
  let c := computeVelocityCommands host fuel s cmd in
  attempts c <> [] ->
  controller_ (planner c)
  = mkVelocityLimits (min_vel_x (limits_ s)) (capped_max_vel_x host s)
                     (max_vel_theta (limits_ s))
  /\ law_min_vel_x (controller_ (planner c))
     <= law_max_vel_x (controller_ (planner c)).
Proof.
  intros Hodom c Hlog.
  assert (Hctl : controller_ (planner c)
                 = mkVelocityLimits (min_vel_x (limits_ s)) (capped_max_vel_x host s)
                                    (max_vel_theta (limits_ s))).
  { destruct (cycle_cases host fuel s cmd)
      as [(_ & _ & Hnil & _)
         |(robot & plan & back & tf & _ & _ & _ & _ & _
           & [(_ & _ & Hnil)|(_ & Hc)])]; fold c in Hnil || fold c in Hc;
      try contradiction.
    destruct (scan_frame host fuel plan tf (inverse host tf) (length plan - 1)
                (with_robot_pose robot s) cmd) as (_ & _ & _ & _ & Hne).
    cbn zeta in Hne. rewrite <- Hc in Hne. rewrite (Hne Hlog).
    unfold configure_velocity. cbn. now rewrite Hodom. }
  split; [exact Hctl|]. rewrite Hctl. cbn. unfold capped_max_vel_x. apply Rmax_r.
Qed.

Lemma cycle_pushes_capped_bounds_witness :
  let host := bench_host (Some [origin; ahead 1; ahead 2]) at_rest
                         (constant_law 1 0) free_grid lethal_cost in
  let c := computeVelocityCommands host 5 (bench_planner true) (mkTwist 0 0) in
  attempts c <> [] /\ law_max_vel_x (controller_ (planner c)) = 0.1.
Proof.
  intros host c.
  assert (Hlog : attempts c <> []).
  { subst c host. unfold computeVelocityCommands. cbn -[ltb hypot scan].
    rewrite (hypot_eq (2 - 0) (0 - 0) 2) by lra. decide_ltb.
    cbn -[ltb hypot rollout].
    rewrite (hypot_eq (2 - 0) (0 - 0) 2) by lra. decide_ltb.
    destruct (rollout _ _ _ _ _ _ _) as [e cmd1]. destruct e; discriminate. }
  split; [exact Hlog|].
  destruct (cycle_pushes_capped_bounds host 5 (bench_planner true) (mkTwist 0 0)
              eq_refl Hlog) as [Hctl _].
  unfold c. rewrite Hctl. cbn. unfold capped_max_vel_x. cbn.
  rewrite Rmin_left by lra. apply Rmax_right. lra.
Defined.

(** ** Candidates out of range and the initial rotation *)

Lemma scan_out_of_range (host : Host) (fuel : nat) (plan : list Pose)
    (odom_to_base base_to_odom : Transform host) (i : nat) (s : Planner)
    (cmd : Twist) :
  (S i < length plan)%nat ->
  ~ within_lookahead s plan (S i) ->
  scan host fuel plan odom_to_base base_to_odom (S i) s cmd
  = scan host fuel plan odom_to_base base_to_odom i s cmd.
Proof.
  intros Hlen Hout. cbn [scan].
  destruct (lookup_lt_is_Some_2 plan (S i) Hlen) as [pose Hpose].
  rewrite Hpose.
  destruct (ltb _ _) eqn:Hfar; [reflexivity|].
  apply ltb_false in Hfar. exfalso. apply Hout. exists pose. auto.
Qed.

Lemma scan_skip (host : Host) (fuel : nat) (plan : list Pose)
    (odom_to_base base_to_odom : Transform host) (s : Planner) (cmd : Twist)
    (i n : nat) :
  (i <= n)%nat -> (n < length plan)%nat ->
  (forall j, (i < j)%nat -> ~ within_lookahead s plan j) ->
  scan host fuel plan odom_to_base base_to_odom n s cmd
  = scan host fuel plan odom_to_base base_to_odom i s cmd.
Proof.
  intros Hle Hlen Hout. induction n as [|n IH].
  - replace i with 0%nat by lia. reflexivity.
  - destruct (decide (i = S n)) as [->|Hne]; [reflexivity|].
    rewrite scan_out_of_range; [|exact Hlen|apply Hout; lia].
    apply IH; lia.
Qed.

(** X12. When no pose of the plan from index 1 on lies within
    [max_lookahead] (a plan of a single pose is such a plan) and the robot
    is not within [xy_goal_tolerance] of the last pose, the cycle fails
    without simulating anything and leaves [cmd_vel] as it was. *)
Theorem no_candidate_in_range_fails (host : Host) (fuel : nat) (s : Planner)
    (cmd : Twist) (robot back : Pose) (plan : list Pose)
    (odom_to_base : Transform host) :
  initialized_ s = true ->
  getRobotPose host = Some robot ->
  getLocalPlan host robot = Some plan ->
  last plan = Some back ->
  lookupTransform host = Some odom_to_base ->
  xy_goal_tolerance_ s
    <= hypot (x (position back) - x (position robot))
             (y (position back) - y (position robot)) ->
  (forall j, (1 <= j)%nat -> ~ within_lookahead (with_robot_pose robot s) plan j) ->
  computeVelocityCommands host fuel s cmd
  = mkCycle (Return false) cmd (with_robot_pose robot s) [].
Proof.
  intros Hinit Hrobot Hplan Hback Htf Hfar Hout.
  rewrite (cycle_scans host fuel s cmd robot back plan odom_to_base)
    by assumption.
  assert (Hlen : (0 < length plan)%nat).
  { destruct plan; [discriminate|cbn; lia]. }
  rewrite (scan_skip _ _ _ _ _ _ _ 0 (length plan - 1)); [reflexivity|lia|lia|].
  intros j Hj. apply Hout. lia.
Qed.

Lemma no_candidate_in_range_fails_witness :
  computeVelocityCommands
    (bench_host (Some [ahead 1]) at_rest (constant_law 1 0) free_grid free_cost)
    5 (bench_planner false) (mkTwist 0 0)
  = mkCycle (Return false) (mkTwist 0 0)
            (with_robot_pose origin (bench_planner false)) [].
Proof.
  apply (no_candidate_in_range_fails
           (bench_host (Some [ahead 1]) at_rest (constant_law 1 0) free_grid free_cost)
           5 (bench_planner false) (mkTwist 0 0) origin (ahead 1) [ahead 1] tt);
    try reflexivity.
  - cbn. rewrite (hypot_eq (1 - 0) (0 - 0) 1) by lra. lra.
  - intros j Hj (pose & Hpose & _). destruct j as [|j]; [lia|discriminate].
Defined.

Lemma scan_at_farthest (host : Host) (fuel : nat) (plan : list Pose)
    (odom_to_base base_to_odom : Transform host) (s : Planner) (cmd : Twist)
    (i : nat) (pose : Pose) :
  farthest_candidate s plan i -> plan !! i = Some pose ->
  scan host fuel plan odom_to_base base_to_odom (length plan - 1) s cmd
  = match initial_rotation host s (doTransform host odom_to_base pose) cmd with
    | inl cmd0 => mkCycle (Return true) cmd0 s []
    | inr (s0, cmd0) =>
        let s1 := configure_velocity host s0 in
        let '(e, cmd1) :=
          rollout host fuel s1 base_to_odom
                  (doTransform host odom_to_base pose) [] cmd0 in
        match e with
        | Reached _ => mkCycle (Return true) cmd1 s1 [(i, e)]
        | ApproachFailed => mkCycle (Return false) cmd1 s1 [(i, e)]
        | OffCostmap | Collision =>
            logged (i, e)
              (scan host fuel plan odom_to_base base_to_odom (i - 1) s1 cmd1)
        | DivisionByZero => mkCycle Undefined cmd1 s1 [(i, e)]
        | OutOfFuel => mkCycle Diverges cmd1 s1 [(i, e)]
        end
    end.
Proof.
  intros (Hpos & (pose' & Hpose' & Hnear) & Hout) Hpose.
  rewrite Hpose in Hpose'. injection Hpose' as <-.
  assert (Hlen : (i < length plan)%nat) by (eapply lookup_lt_Some; eauto).
  rewrite (scan_skip _ _ _ _ _ _ _ i (length plan - 1)); [|lia|lia|exact Hout].
  destruct i as [|i]; [lia|].
  cbn [scan]. rewrite Hpose.
  apply ltb_false in Hnear. rewrite Hnear.
  replace (S i - 1)%nat with i by lia. reflexivity.
Qed.

(** The goal branch: within [xy_goal_tolerance] of the last pose of the
    plan the cycle ends before the scan, with the rotation towards that pose;
    the members keep their values, [robot_pose_] apart. *)
Lemma cycle_at_goal (host : Host) (fuel : nat) (s : Planner) (cmd : Twist)
    (robot back : Pose) (plan : list Pose) (odom_to_base : Transform host) :
  initialized_ s = true ->
  getRobotPose host = Some robot ->
  getLocalPlan host robot = Some plan ->
  last plan = Some back ->
  lookupTransform host = Some odom_to_base ->
  hypot (x (position back) - x (position robot))
        (y (position back) - y (position robot)) < xy_goal_tolerance_ s ->
  computeVelocityCommands host fuel s cmd
  = mkCycle (Return true)
            (snd (rotateTowards host s (doTransform host odom_to_base back)))
            (with_robot_pose robot s) [].
Proof.
  intros Hinit Hrobot Hplan Hback Htf Hnear.
  unfold computeVelocityCommands.
  rewrite Hinit, Hrobot, Hplan, Hback, Htf. cbn [negb].
  apply ltb_true in Hnear. cbn [xy_goal_tolerance_ with_robot_pose].
  rewrite Hnear. now rewrite rotateTowards_with_robot_pose.
Qed.

(** X8. Right after a new plan, with [initial_rotate_tolerance > 0], when
    the yaw error that [rotateTowards] returns for the farthest candidate
    within [max_lookahead] is not below the tolerance, the cycle returns
    true with a pure rotation, simulates nothing and keeps [has_new_path_]
    set.  The rotation is the one [rotateTowards] commands for that
    candidate, unless the robot is within [xy_goal_tolerance] of the last
    pose of the plan: the goal branch then returns first, with the rotation
    towards that last pose. *)
Theorem initial_rotation_holds_cycle (host : Host) (fuel : nat) (s : Planner)
    (cmd : Twist) (robot back pose : Pose) (plan : list Pose)
    (odom_to_base : Transform host) (i : nat) :
  initialized_ s = true ->
  getRobotPose host = Some robot ->
  getLocalPlan host robot = Some plan ->
  last plan = Some back ->
  lookupTransform host = Some odom_to_base ->
  farthest_candidate (with_robot_pose robot s) plan i ->
  plan !! i = Some pose ->
  has_new_path_ s = true ->
  0 < initial_rotate_tolerance_ s ->
  let target := doTransform host odom_to_base pose in
  initial_rotate_tolerance_ s <= Rabs (fst (rotateTowards host s target)) ->
  let c := computeVelocityCommands host fuel s cmd in
  let goal_distance :=
    hypot (x (position back) - x (position robot))
          (y (position back) - y (position robot)) in
  result c = Return true
  /\ linear_x (cmd_vel c) = 0
  /\ attempts c = []
  /\ has_new_path_ (planner c) = true
  /\ (xy_goal_tolerance_ s <= goal_distance ->
      cmd_vel c = snd (rotateTowards host s target))
  /\ (goal_distance < xy_goal_tolerance_ s ->
      cmd_vel c
      = snd (rotateTowards host s (doTransform host odom_to_base back))).
Proof.
  intros Hinit Hrobot Hplan Hback Htf Hcand Hpose Hnew Htol target Hyaw c
         goal_distance.
  destruct (Rlt_le_dec goal_distance (xy_goal_tolerance_ s)) as [Hnear|Hfar].
  { subst c.
    rewrite (cycle_at_goal host fuel s cmd robot back plan odom_to_base)
      by assumption.
    cbn. repeat split; auto. intros Hfar. lra. }
  subst c.
  rewrite (cycle_scans host fuel s cmd robot back plan odom_to_base)
    by assumption.
  rewrite (scan_at_farthest _ _ _ _ _ _ _ i pose Hcand Hpose).
  destruct (initial_rotation_cases host (with_robot_pose robot s)
              (doTransform host odom_to_base pose) cmd)
    as [(_ & _ & _ & H)|[(_ & _ & Hlt & _)|([Hoff|Hoff] & _)]].
  - rewrite H. cbn. repeat split; auto. intros Hnear. lra.
  - fold target in Hlt.
    change (fst (rotateTowards host s target)) with (rotate_yaw host target) in Hyaw.
    cbn [initial_rotate_tolerance_ with_robot_pose] in Hlt. lra.
  - cbn in Hoff. congruence.
  - cbn [initial_rotate_tolerance_ with_robot_pose] in Hoff. lra.
Qed.

Lemma initial_rotation_holds_cycle_witness :
  let host := bench_host (Some [origin; aside 1]) at_rest (constant_law 1 0)
                         free_grid free_cost in
  let s := with_has_new_path true
             (reconfigureCallback 1 (config.mk 0.5 0.1 0.2 1 1 0.1 0.1 0.3 2 0.2)
                                  (bench_planner false)) in
  let c := computeVelocityCommands host 5 s (mkTwist 0 0) in
  result c = Return true /\ linear_x (cmd_vel c) = 0 /\ attempts c = []
  /\ cmd_vel c = snd (rotateTowards host s (aside 1)).
Proof.
  intros host s c.
  assert (Hdist : hypot (0 - 0) (1 - 0) = 1) by (apply hypot_eq; lra).
  assert (Hyaw : rotate_yaw host (aside 1) = PI / 2).
  { unfold rotate_yaw. cbn -[hypot ltb atan2].
    rewrite (hypot_eq 0 1 1) by lra. decide_ltb.
    unfold atan2. case_ltb; lra. }
  destruct (initial_rotation_holds_cycle host 5 s (mkTwist 0 0) origin (aside 1)
              (aside 1) [origin; aside 1] tt 1)
    as (Hres & Hlin & Hlog & _ & Hcmd & _); try reflexivity.
  - split; [lia|]. split.
    + exists (aside 1). split; [reflexivity|]. cbn -[hypot]. rewrite Hdist. lra.
    + intros j Hj (p & Hp & _). destruct j as [|[|j]]; [lia|lia|discriminate].
  - cbn. lra.
  - cbn [fst rotateTowards]. change (doTransform host tt (aside 1)) with (aside 1).
    rewrite Hyaw. assert (Hpi := PI2_1). rewrite Rabs_right by lra. cbn. lra.
  - split; [exact Hres|]. split; [exact Hlin|]. split; [exact Hlog|].
    apply Hcmd. cbn -[hypot]. rewrite Hdist. lra.
Defined.

(** X9. Right after a new plan, with [initial_rotate_tolerance > 0], when
    the yaw error that [rotateTowards] returns for the farthest candidate
    within [max_lookahead] is below the tolerance and the robot is not
    within [xy_goal_tolerance] of the last pose of the plan, the cycle
    clears [has_new_path_] and simulates that candidate in the same cycle,
    before any other.  Within [xy_goal_tolerance] the goal branch returns
    first: [has_new_path_] stays set and nothing is simulated. *)
Theorem initial_rotation_released (host : Host) (fuel : nat) (s : Planner)
    (cmd : Twist) (robot back pose : Pose) (plan : list Pose)
    (odom_to_base : Transform host) (i : nat) :
  initialized_ s = true ->
  getRobotPose host = Some robot ->
  getLocalPlan host robot = Some plan ->
  last plan = Some back ->
  lookupTransform host = Some odom_to_base ->
  farthest_candidate (with_robot_pose robot s) plan i ->
  plan !! i = Some pose ->
  has_new_path_ s = true ->
  0 < initial_rotate_tolerance_ s ->
  let target := doTransform host odom_to_base pose in
  Rabs (fst (rotateTowards host s target)) < initial_rotate_tolerance_ s ->
  let c := computeVelocityCommands host fuel s cmd in
  let goal_distance :=
    hypot (x (position back) - x (position robot))
          (y (position back) - y (position robot)) in
  (xy_goal_tolerance_ s <= goal_distance ->
   has_new_path_ (planner c) = false
   /\ exists e rest, attempts c = (i, e) :: rest)
  /\ (goal_distance < xy_goal_tolerance_ s ->
      has_new_path_ (planner c) = true
      /\ attempts c = []
      /\ result c = Return true
      /\ cmd_vel c
         = snd (rotateTowards host s (doTransform host odom_to_base back))).
Proof.
  intros Hinit Hrobot Hplan Hback Htf Hcand Hpose Hnew Htol target Hyaw c
         goal_distance.
  split.
  2:{ intros Hnear. subst c.
      rewrite (cycle_at_goal host fuel s cmd robot back plan odom_to_base)
        by assumption.
      cbn. auto. }
  intros Hfar. subst c.
  rewrite (cycle_scans host fuel s cmd robot back plan odom_to_base)
    by assumption.
  rewrite (scan_at_farthest _ _ _ _ _ _ _ i pose Hcand Hpose).
  destruct (initial_rotation_cases host (with_robot_pose robot s)
              (doTransform host odom_to_base pose) cmd)
    as [(_ & _ & Hge & _)|[(_ & _ & _ & H)|([Hoff|Hoff] & _)]].
  - fold target in Hge.
    change (fst (rotateTowards host s target)) with (rotate_yaw host target) in Hyaw.
    cbn [initial_rotate_tolerance_ with_robot_pose] in Hge. lra.
  - rewrite H. cbn zeta.
    set (s1 := configure_velocity host
                 (with_has_new_path false (with_robot_pose robot s))).
    assert (Hflag : has_new_path_ s1 = false).
    { subst s1. unfold configure_velocity. cbn.
      destruct (odom_topic_ s); reflexivity. }
    destruct (rollout host fuel s1 _ _ _ _) as [e cmd1].
    assert (Hrej : forall e0,
               let c' := scan host fuel plan odom_to_base
                              (inverse host odom_to_base) (i - 1) s1 cmd1 in
               has_new_path_ (planner (logged (i, e0) c')) = false
               /\ exists e' rest, attempts (logged (i, e0) c') = (i, e') :: rest).
    { intros e0 c'. cbn [logged planner attempts]. split; [|eauto].
      destruct (scan_frame host fuel plan odom_to_base
                  (inverse host odom_to_base) (i - 1) s1 cmd1)
        as (_ & _ & Hn & _).
      fold c' in Hn. destruct (has_new_path_ (planner c')); [|reflexivity].
      rewrite Hn in Hflag by reflexivity. discriminate. }
    destruct e; first [apply Hrej | cbn; split; [exact Hflag|eauto]].
  - cbn in Hoff. congruence.
  - cbn [initial_rotate_tolerance_ with_robot_pose] in Hoff. lra.
Qed.

Lemma initial_rotation_released_witness :
  let host := bench_host (Some [origin; ahead 1]) at_rest failing_law
                         free_grid free_cost in
  let s := with_has_new_path true
             (reconfigureCallback 1 (config.mk 0.5 0.1 0.2 1 1 0.1 0.1 0.3 2 0.2)
                                  (bench_planner false)) in
  has_new_path_ (planner (computeVelocityCommands host 5 s (mkTwist 0 0))) = false.
Proof.
  intros host s.
  assert (Hdist : hypot (1 - 0) (0 - 0) = 1) by (apply hypot_eq; lra).
  assert (Hyaw : rotate_yaw host (ahead 1) = 0).
  { unfold rotate_yaw. cbn -[hypot ltb atan2].
    rewrite (hypot_eq 1 0 1) by lra. decide_ltb. apply atan2_0_1. }
  destruct (initial_rotation_released host 5 s (mkTwist 0 0) origin (ahead 1)
              (ahead 1) [origin; ahead 1] tt 1) as [Hrel _]; try reflexivity.
  - split; [lia|]. split.
    + exists (ahead 1). split; [reflexivity|]. cbn -[hypot]. rewrite Hdist. lra.
    + intros j Hj (p & Hp & _). destruct j as [|[|j]]; [lia|lia|discriminate].
  - cbn. lra.
  - cbn [fst rotateTowards]. change (doTransform host tt (ahead 1)) with (ahead 1).
    rewrite Hyaw, Rabs_R0. cbn. lra.
  - apply Hrel. cbn -[hypot]. rewrite Hdist. lra.
Defined.

(** ** Successful cycles *)

Lemma scan_success (host : Host) (fuel : nat) (plan : list Pose)
    (odom_to_base base_to_odom : Transform host) (i : nat) :
  forall (s : Planner) (cmd : Twist),
    let c := scan host fuel plan odom_to_base base_to_odom i s cmd in
    result c = Return true ->
    (exists j p, last (attempts c) = Some (j, Reached p))
    \/ (attempts c = [] /\ linear_x (cmd_vel c) = 0
        /\ has_new_path_ s = true /\ 0 < initial_rotate_tolerance_ s).
Proof.
  induction i as [|i IH]; intros s cmd c Hres; [discriminate|].
  subst c. cbn [scan] in *.
  destruct (plan !! S i) as [pose|]; [|discriminate].
  destruct (ltb _ _); [now apply IH|].
  destruct (initial_rotation host s (doTransform host odom_to_base pose) cmd)
    as [cmd0|[s0 cmd0]] eqn:Hgate.
  { right.
    destruct (initial_rotation_cases host s (doTransform host odom_to_base pose) cmd)
      as [(Hnew & Htol & _ & H)|[(_ & _ & _ & H)|(_ & H)]];
      rewrite H in Hgate; try discriminate.
    injection Hgate as <-. cbn. auto. }
  destruct (gate_then_configure host s s0 _ _ _ Hgate) as (_ & _ & _ & Hoff & _).
  set (s1 := configure_velocity host s0) in *.
  destruct (rollout host fuel s1 base_to_odom
              (doTransform host odom_to_base pose) [] cmd0) as [e cmd1].
  assert (Hrej : forall e0,
             result (logged (S i, e0)
                       (scan host fuel plan odom_to_base base_to_odom i s1 cmd1))
             = Return true ->
             (exists j p,
                 last (attempts (logged (S i, e0)
                         (scan host fuel plan odom_to_base base_to_odom i s1 cmd1)))
                 = Some (j, Reached p))
             \/ (attempts (logged (S i, e0)
                    (scan host fuel plan odom_to_base base_to_odom i s1 cmd1)) = []
                 /\ linear_x (cmd_vel (logged (S i, e0)
                      (scan host fuel plan odom_to_base base_to_odom i s1 cmd1))) = 0
                 /\ has_new_path_ s = true /\ 0 < initial_rotate_tolerance_ s)).
  { intros e0 Hres0. cbn [logged result attempts] in *.
    destruct (IH s1 cmd1 Hres0) as [(j & p & Hlast)|(_ & _ & Hnew & Htol)].
    - left. exists j, p.
      destruct (attempts (scan host fuel plan odom_to_base base_to_odom i s1 cmd1));
        [discriminate|exact Hlast].
    - destruct Hoff as [Hoff|Hoff]; [congruence|lra]. }
  destruct e; try discriminate; try (now apply Hrej).
  left. eauto.
Qed.

(** X14. A cycle that returns true has either reached a candidate, which is
    then the last one it tried, or has simulated nothing and commands a
    pure rotation. *)
Theorem cycle_success_cases (host : Host) (fuel : nat) (s : Planner)
    (cmd : Twist) :
  let c := computeVelocityCommands host fuel s cmd in
  result c = Return true ->
  (exists j p, last (attempts c) = Some (j, Reached p))
  \/ (attempts c = [] /\ linear_x (cmd_vel c) = 0).
Proof.
  intros c. subst c. unfold computeVelocityCommands.
  destruct (negb (initialized_ s)); [discriminate|].
  destruct (getRobotPose host) as [robot|]; [|discriminate].
  destruct (getLocalPlan host robot) as [plan|]; [|discriminate].
  destruct (last plan); [|discriminate].
  destruct (lookupTransform host) as [tf|]; [|discriminate].
  destruct (ltb _ _); [right; split; reflexivity|].
  intros Hres.
  destruct (scan_success host fuel plan tf (inverse host tf) (length plan - 1)
              (with_robot_pose robot s) cmd Hres) as [H|(H1 & H2 & _)]; auto.
Qed.

Lemma cycle_success_cases_witness :
  let host := bench_host (Some [origin; ahead 1; ahead 2]) at_rest
                         (constant_law 1 0) wall_grid wall_cost in
  let c := computeVelocityCommands host 2 (bench_planner false) (mkTwist 0 0) in
  exists j p, last (attempts c) = Some (j, Reached p).
Proof.
  intros host c.
  destruct (cycle_success_cases host 2 (bench_planner false) (mkTwist 0 0))
    as [H|[H _]].
  - subst host. now rewrite bench_fallback_cycle.
  - exact H.
  - exfalso. subst host. rewrite bench_fallback_cycle in H. discriminate.
Defined.

Lemma scan_unrejected (host : Host) (fuel : nat) (plan : list Pose)
    (odom_to_base base_to_odom : Transform host) (i : nat) :
  forall (s : Planner) (cmd : Twist) (j : nat) (e : sim_exit),
    let c := scan host fuel plan odom_to_base base_to_odom i s cmd in
    (j, e) ∈ attempts c -> rejected e = false ->
    exists pose s1 cmd0,
      plan !! j = Some pose
      /\ rollout host fuel s1 base_to_odom (doTransform host odom_to_base pose)
                 [] cmd0 = (e, cmd_vel c)
      /\ planner c = s1
      /\ same_settings s s1.
Proof.
  induction i as [|i IH]; intros s cmd j e c Hin Hrej.
  { subst c. cbn in Hin. now apply elem_of_nil in Hin. }
  subst c. cbn [scan] in *.
  destruct (plan !! S i) as [pose|] eqn:Hpose.
  2:{ cbn in Hin. now apply elem_of_nil in Hin. }
  destruct (ltb _ _); [now apply IH|].
  destruct (initial_rotation host s (doTransform host odom_to_base pose) cmd)
    as [cmd0|[s0 cmd0]] eqn:Hgate.
  { cbn in Hin. now apply elem_of_nil in Hin. }
  destruct (gate_then_configure host s s0 _ _ _ Hgate) as (Hsame & _).
  set (s1 := configure_velocity host s0) in *.
  destruct (rollout host fuel s1 base_to_odom
              (doTransform host odom_to_base pose) [] cmd0) as [e0 cmd1] eqn:Hroll.
  assert (Hterm : forall r,
             (j, e) ∈ attempts (mkCycle r cmd1 s1 [(S i, e0)]) ->
             exists pose' s1' cmd0',
               plan !! j = Some pose'
               /\ rollout host fuel s1' base_to_odom
                          (doTransform host odom_to_base pose') [] cmd0'
                  = (e, cmd_vel (mkCycle r cmd1 s1 [(S i, e0)]))
               /\ planner (mkCycle r cmd1 s1 [(S i, e0)]) = s1'
               /\ same_settings s s1').
  { intros r Hin0. cbn in Hin0. apply elem_of_cons in Hin0 as [Hin0|Hin0].
    - injection Hin0 as -> ->. exists pose, s1, cmd0. cbn. auto.
    - now apply elem_of_nil in Hin0. }
  assert (Hrec : (j, e) ∈ attempts (logged (S i, e0)
                   (scan host fuel plan odom_to_base base_to_odom i s1 cmd1)) ->
                 rejected e0 = true ->
                 exists pose' s1' cmd0',
                   plan !! j = Some pose'
                   /\ rollout host fuel s1' base_to_odom
                              (doTransform host odom_to_base pose') [] cmd0'
                      = (e, cmd_vel (logged (S i, e0)
                           (scan host fuel plan odom_to_base base_to_odom i s1 cmd1)))
                   /\ planner (logged (S i, e0)
                        (scan host fuel plan odom_to_base base_to_odom i s1 cmd1)) = s1'
                   /\ same_settings s s1').
  { intros Hin0 Hrej0. cbn [logged attempts cmd_vel planner] in *.
    apply elem_of_cons in Hin0 as [Hin0|Hin0].
    - injection Hin0 as -> ->. congruence.
    - destruct (IH s1 cmd1 j e Hin0 Hrej) as (pose' & s1' & cmd0' & H1 & H2 & H3 & H4).
      exists pose', s1', cmd0'.
      split; [exact H1|]. split; [exact H2|]. split; [exact H3|].
      eapply same_settings_trans; eassumption. }
  destruct e0; first [now apply Hterm | now apply Hrec].
Qed.

Lemma rollout_first_command (host : Host) (fuel : nat) (s : Planner)
    (base_to_odom : Transform host) (pose : Pose) (cmd cmd1 : Twist)
    (p : list Pose) :
  rollout host fuel s base_to_odom pose [] cmd = (Reached p, cmd1) ->
  exists ex ey error_angle,
    relative_error host pose [] = (ex, ey, error_angle)
    /\ approach host (controller_ s) ex ey error_angle
       = Some (linear_x cmd1, angular_z cmd1).
Proof.
  intros Hroll. destruct fuel as [|fuel]; [discriminate|].
  cbn [rollout] in Hroll.
  destruct (relative_error host pose []) as [[ex ey] error_angle].
  exists ex, ey, error_angle. split; [reflexivity|].
  destruct (approach host (controller_ s) ex ey error_angle)
    as [[vel_x vel_th]|] eqn:Happ; [|discriminate].
  destruct (generate_next_pose _ _ _ _ _) as [next_pose|]; [|discriminate].
  pose proof (check_pose_cases host base_to_odom next_pose) as Hcheck.
  destruct (check_pose host base_to_odom next_pose).
  - injection Hroll as -> _. discriminate.
  - pose proof (rollout_keeps_cmd host s base_to_odom pose fuel
                  ([] ++ [next_pose]) (mkTwist vel_x vel_th)) as Hkeep.
    rewrite Hroll in Hkeep. cbn in Hkeep. rewrite Hkeep by discriminate.
    reflexivity.
Qed.

(** X17. When a cycle has reached candidate [j] along the simulated path
    [p], it returns true, [j] is the last candidate it tried, [cmd_vel] is
    the first command of the law for that candidate, every pose of [p] lies
    on the costmap below the inscribed cost, and [p] ends closer than
    [resolution] to the candidate. *)
Theorem reached_candidate_succeeds (host : Host) (fuel : nat) (s : Planner)
    (cmd : Twist) (robot : Pose) (plan : list Pose)
    (odom_to_base : Transform host) (j : nat) (p : list Pose) :
  getRobotPose host = Some robot ->
  getLocalPlan host robot = Some plan ->
  lookupTransform host = Some odom_to_base ->
  let c := computeVelocityCommands host fuel s cmd in
  (j, Reached p) ∈ attempts c ->
  result c = Return true
  /\ last (attempts c) = Some (j, Reached p)
  /\ holds_first_command host plan odom_to_base c
  /\ exists pose back,
       plan !! j = Some pose /\ last p = Some back
       /\ Forall (free_pose host (inverse host odom_to_base)) p
       /\ hypot (x (position (doTransform host odom_to_base pose)) - x (position back))
                (y (position (doTransform host odom_to_base pose)) - y (position back))
          < resolution_ s.
Proof.
  intros Hrobot Hplan Htf c Hin.
  destruct (cycle_cases host fuel s cmd)
    as [(_ & _ & Hnil & _)
       |(robot' & plan' & back' & tf & _ & Hrobot' & Hplan' & _ & Htf'
         & [(_ & _ & Hnil)|(_ & Hc)])]; fold c in Hnil || fold c in Hc.
  1,2: rewrite Hnil in Hin; now apply elem_of_nil in Hin.
  rewrite Hrobot in Hrobot'. injection Hrobot' as <-.
  rewrite Hplan in Hplan'. injection Hplan' as <-.
  rewrite Htf in Htf'. injection Htf' as <-.
  rewrite Hc in *.
  destruct (scan_stops host fuel plan odom_to_base (inverse host odom_to_base)
              (length plan - 1) (with_robot_pose robot s) cmd j (Reached p)
              Hin eq_refl) as [Hres Hlast].
  destruct (scan_unrejected host fuel plan odom_to_base (inverse host odom_to_base)
              (length plan - 1) (with_robot_pose robot s) cmd j (Reached p)
              Hin eq_refl)
    as (pose & s1 & cmd0 & Hpose & Hroll & Hplanner & Hsame).
  destruct (rollout_first_command _ _ _ _ _ _ _ _ Hroll)
    as (ex & ey & error_angle & Herr & Happ).
  destruct (rollout_reached_path _ _ _ _ _ _ _ _ Hroll)
    as (_ & Hfree & _ & back & Hback & Hnear).
  split; [exact Hres|]. split; [exact Hlast|]. split.
  - exists j, (Reached p), pose, ex, ey, error_angle.
    rewrite Hplanner. auto.
  - exists pose, back. repeat split; auto.
    destruct Hsame as (_ & _ & _ & _ & _ & _ & _ & _ & _ & Hres1 & _).
    rewrite Hres1 in Hnear. exact Hnear.
Qed.

Lemma reached_candidate_succeeds_witness :
  let host := bench_host (Some [origin; ahead 1; ahead 2]) at_rest
                         (constant_law 1 0) wall_grid wall_cost in
  let c := computeVelocityCommands host 2 (bench_planner false) (mkTwist 0 0) in
  result c = Return true
  /\ Forall (free_pose host tt) [ahead (0 + 1)].
Proof.
  intros host c.
  destruct (reached_candidate_succeeds host 2 (bench_planner false) (mkTwist 0 0)
              origin [origin; ahead 1; ahead 2] tt 1 [ahead (0 + 1)])
    as (Hres & _ & _ & pose & back & _ & _ & Hfree & _); try reflexivity.
  - subst host. rewrite bench_fallback_cycle. cbn.
    apply elem_of_cons. right. apply elem_of_cons. now left.
  - split; [exact Hres|exact Hfree].
Defined.

(** ** The plan that setPlan stores *)

Lemma set_yaw_twice (p : Pose) (t t' : R) :
  set_yaw (set_yaw p t) t' = set_yaw p t'.
Proof. reflexivity. Qed.

Lemma orient_plan_positions (plan oriented : list Pose) :
  plan <> [] -> (Z.of_nat (length plan) < 2 ^ 64)%Z ->
  orient_plan plan = Some oriented ->
  forall i p, plan !! i = Some p ->
    exists o, oriented !! i = Some o
      /\ position o = position p
      /\ qx (orientation o) = qx (orientation p)
      /\ qy (orientation o) = qy (orientation p).
Proof.
  intros Hne Hlt Hrun i p Hp.
  destruct (orient_plan_spec plan Hne Hlt) as (o & Hrun' & Hlen & Hyaw & Hlast).
  rewrite Hrun in Hrun'. injection Hrun' as <-.
  destruct (plan !! (i + 1)%nat) as [next|] eqn:Hnext.
  - rewrite (Hyaw i p next Hp Hnext). eexists. split; [reflexivity|].
    cbn. auto.
  - apply lookup_ge_None in Hnext. apply lookup_lt_Some in Hp as Hi.
    assert (Hi' : i = Init.Nat.pred (length plan)) by lia.
    rewrite last_lookup, Hlen, last_lookup, <- Hi', Hp in Hlast.
    exists p. auto.
Qed.

Lemma orient_plan_idempotent (plan oriented : list Pose) :
  plan <> [] -> (Z.of_nat (length plan) < 2 ^ 64)%Z ->
  orient_plan plan = Some oriented ->
  orient_plan oriented = Some oriented.
Proof.
  intros Hne Hlt Hrun.
  destruct (orient_plan_spec plan Hne Hlt) as (o & Hrun' & Hlen & Hyaw & Hlast).
  rewrite Hrun in Hrun'. injection Hrun' as <-.
  assert (Hne' : oriented <> []).
  { intros ->. destruct plan; [congruence|discriminate]. }
  assert (Hlt' : (Z.of_nat (length oriented) < 2 ^ 64)%Z) by now rewrite Hlen.
  destruct (orient_plan_spec oriented Hne' Hlt')
    as (o2 & Hrun2 & Hlen2 & Hyaw2 & Hlast2).
  rewrite Hrun2. f_equal. apply list_eq. intros i.
  destruct (oriented !! (i + 1)%nat) as [next'|] eqn:Hnext'.
  - assert (Hi : (i + 1 < length plan)%nat)
      by (rewrite <- Hlen; eapply lookup_lt_Some; eauto).
    destruct (lookup_lt_is_Some_2 plan i) as [p Hp]; [lia|].
    destruct (lookup_lt_is_Some_2 plan (i + 1)) as [next Hnext]; [lia|].
    pose proof (Hyaw i p next Hp Hnext) as Ho.
    rewrite (Hyaw2 i _ next' Ho Hnext'), Ho. f_equal.
    destruct (orient_plan_positions plan oriented Hne Hlt Hrun (i + 1)%nat next Hnext)
      as (o' & Ho' & Hpos & _).
    rewrite Hnext' in Ho'. injection Ho' as <-.
    rewrite set_yaw_twice. cbn [position set_yaw]. now rewrite Hpos.
  - apply lookup_ge_None in Hnext'.
    destruct (decide (i < length oriented)%nat) as [Hi|Hi].
    + assert (Hi' : i = Init.Nat.pred (length oriented)) by lia.
      rewrite !last_lookup, Hlen2, <- Hi' in Hlast2. exact Hlast2.
    + rewrite (proj2 (lookup_ge_None oriented i)) by lia.
      apply lookup_ge_None. lia.
Qed.

(** X13. The plan that a successful [setPlan] stores has the positions of
    the input plan, pose by pose, and the [x], [y] components of their
    quaternions; handing the stored plan to [setPlan] again stores the same
    plan. *)
Theorem setPlan_keeps_positions (host : Host) (s s' : Planner) (plan : list Pose) :
  (Z.of_nat (length plan) < 2 ^ 64)%Z ->
  setPlan host s plan = Some (true, s') ->
  length (global_plan_ s') = length plan
  /\ (forall i p, plan !! i = Some p ->
        exists o, global_plan_ s' !! i = Some o
          /\ position o = position p
          /\ qx (orientation o) = qx (orientation p)
          /\ qy (orientation o) = qy (orientation p))
  /\ has_new_path_ s' = true
  /\ setPlan host s' (global_plan_ s') = Some (true, s').
Proof.
  intros Hlt Hset. unfold setPlan in Hset.
  destruct (initialized_ s) eqn:Hinit; cbn [negb] in Hset; [|discriminate].
  destruct (orient_plan plan) as [o|] eqn:Hrun; [|discriminate].
  cbn in Hset.
  destruct (planner_setPlan host o) eqn:Hok; [|discriminate].
  injection Hset as <-. cbn [global_plan_ with_has_new_path with_global_plan].
  assert (Hne : plan <> []).
  { intros ->. discriminate. }
  destruct (orient_plan_spec plan Hne Hlt) as (o' & Hrun' & Hlen & _).
  rewrite Hrun in Hrun'. injection Hrun' as <-.
  split; [exact Hlen|]. split; [|split; [reflexivity|]].
  - now apply orient_plan_positions.
  - unfold setPlan. cbn [initialized_ with_has_new_path with_global_plan].
    rewrite Hinit. cbn [negb].
    rewrite (orient_plan_idempotent plan o Hne Hlt Hrun). cbn.
    rewrite Hok. reflexivity.
Qed.

Lemma setPlan_keeps_positions_witness :
  exists s',
    setPlan (bench_host None at_rest failing_law free_grid free_cost)
            (bench_planner false) [origin; aside 1] = Some (true, s')
    /\ length (global_plan_ s') = 2%nat
    /\ setPlan (bench_host None at_rest failing_law free_grid free_cost)
               s' (global_plan_ s') = Some (true, s').
Proof.
  destruct (setPlan (bench_host None at_rest failing_law free_grid free_cost)
              (bench_planner false) [origin; aside 1]) as [[[|] s']|] eqn:Hset;
    try (exfalso; unfold setPlan in Hset; cbn in Hset; discriminate).
  exists s'. split; [reflexivity|].
  destruct (setPlan_keeps_positions
              (bench_host None at_rest failing_law free_grid free_cost)
              (bench_planner false) s' [origin; aside 1]) as (Hlen & _ & _ & Hagain);
    [reflexivity|exact Hset|].
  split; [exact Hlen|exact Hagain].
Defined.

(** ** At the goal *)

(** X16. When [isGoalReached] answers true for the pose that ends the local
    plan, the cycle still returns true with a rotation in place that is not
    zero: the controller never commands a stop by itself. *)
Theorem goal_reached_still_rotates (host : Host) (fuel : nat) (s : Planner)
    (cmd : Twist) (robot : Pose) (plan : list Pose)
    (odom_to_base : Transform host) :
  fst (isGoalReached host s) = true ->
  getRobotPose host = Some robot ->
  getLocalPlan host robot = Some plan ->
  last plan = getGoal host ->
  lookupTransform host = Some odom_to_base ->
  0 < min_in_place_vel_theta_ s ->
  min_in_place_vel_theta_ s <= max_vel_theta (limits_ s) ->
  let c := computeVelocityCommands host fuel s cmd in
  result c = Return true
  /\ attempts c = []
  /\ linear_x (cmd_vel c) = 0
  /\ angular_z (cmd_vel c) <> 0.
Proof.
  intros Hgoal Hrobot Hplan Hlast Htf Hmin Hle c.
  apply isGoalReached_true in Hgoal
    as (Hinit & robot' & goal & Hrobot' & Hgoal & Hnear & _).
  rewrite Hrobot in Hrobot'. injection Hrobot' as <-.
  rewrite Hgoal in Hlast.
  subst c. unfold computeVelocityCommands.
  rewrite Hinit, Hrobot, Hplan, Hlast, Htf. cbn [negb].
  apply ltb_true in Hnear. cbn [xy_goal_tolerance_ with_robot_pose].
  rewrite Hnear. cbn [result attempts cmd_vel].
  rewrite rotateTowards_with_robot_pose.
  split; [reflexivity|]. split; [reflexivity|]. split; [reflexivity|].
  intros Hzero.
  pose proof (rotate_speed_lower host s (doTransform host odom_to_base goal)) as Hlo.
  rewrite Hzero, Rabs_R0 in Hlo. lra.
Qed.

Lemma goal_reached_still_rotates_witness :
  let host := bench_host (Some [origin; ahead 0.05]) at_rest failing_law
                         free_grid free_cost in
  let c := computeVelocityCommands host 0 (bench_planner false) (mkTwist 0 0) in
  fst (isGoalReached host (bench_planner false)) = true
  /\ result c = Return true /\ angular_z (cmd_vel c) <> 0.
Proof.
  intros host c.
  assert (Hgoal : fst (isGoalReached host (bench_planner false)) = true).
  { unfold isGoalReached. cbn -[ltb hypot].
    rewrite (hypot_eq (0.05 - 0) (0 - 0) 0.05) by lra.
    rewrite planar_yaw_identity. replace (0 - 0) with 0 by lra.
    rewrite Rabs_R0. decide_ltb. reflexivity. }
  split; [exact Hgoal|].
  destruct (goal_reached_still_rotates host 0 (bench_planner false) (mkTwist 0 0)
              origin [origin; ahead 0.05] tt Hgoal)
    as (Hres & _ & _ & Hrot); try reflexivity; try (cbn; lra).
  split; [exact Hres|exact Hrot].
Defined.

(** X18. With an [xy_goal_tolerance] that is not positive the goal is never
    reached: [isGoalReached] always answers false, and a cycle that returns
    true without simulating a candidate can only be the initial rotation
    after a new plan. *)
Theorem zero_goal_tolerance (host : Host) (fuel : nat) (s : Planner)
    (cmd : Twist) :
  xy_goal_tolerance_ s <= 0 ->
  let c := computeVelocityCommands host fuel s cmd in
  fst (isGoalReached host s) = false
  /\ (result c = Return true -> attempts c = [] ->
      has_new_path_ s = true /\ 0 < initial_rotate_tolerance_ s).
Proof.
  intros Htol c. split.
  - destruct (fst (isGoalReached host s)) eqn:Hgoal; [|reflexivity].
    apply isGoalReached_true in Hgoal as (_ & robot & goal & _ & _ & Hnear & _).
    pose proof (sqrt_pos ((x (position goal) - x (position robot))
                          * (x (position goal) - x (position robot))
                          + (y (position goal) - y (position robot))
                            * (y (position goal) - y (position robot)))) as Hpos.
    unfold hypot in Hnear. lra.
  - subst c. unfold computeVelocityCommands.
    destruct (negb (initialized_ s)); [discriminate|].
    destruct (getRobotPose host) as [robot|]; [|discriminate].
    destruct (getLocalPlan host robot) as [plan|]; [|discriminate].
    destruct (last plan) as [back|]; [|discriminate].
    destruct (lookupTransform host) as [tf|]; [|discriminate].
    cbn [xy_goal_tolerance_ with_robot_pose].
    destruct (ltb _ _) eqn:Hnear.
    { apply ltb_true in Hnear.
      pose proof (sqrt_pos ((x (position back) - x (position robot))
                            * (x (position back) - x (position robot))
                            + (y (position back) - y (position robot))
                              * (y (position back) - y (position robot)))) as Hpos.
      unfold hypot in Hnear. lra. }
    intros Hres Hlog.
    destruct (scan_success host fuel plan tf (inverse host tf) (length plan - 1)
                (with_robot_pose robot s) cmd Hres)
      as [(j & p & Hlast)|(_ & _ & Hnew & Hrot)].
    + rewrite Hlog in Hlast. discriminate.
    + auto.
Qed.

Lemma zero_goal_tolerance_witness :
  let host := bench_host (Some [origin]) at_rest failing_law free_grid free_cost in
  let s := reconfigureCallback 1 (config.mk 0.5 0.1 0.2 1 1 0 0.1 0.3 2 0)
                               (bench_planner false) in
  fst (isGoalReached host s) = false.
Proof.
  intros host s.
  apply (zero_goal_tolerance host 0 s (mkTwist 0 0)). cbn. lra.
Defined.
